(** * iNFINITE AI 2025: the Flask service of [src/main.py]

    A shallow embedding of the service: the three Prometheus metrics it
    declares, the [before_request] / [after_request] hooks, the five views,
    the rule for static files that [Flask(__name__)] adds to them, and the
    way Flask and Werkzeug run a request through them.  The metrics registry is the
    only state shared between requests and is threaded explicitly; the clock
    ([time.time()], [datetime.utcnow()]) and what the other collectors of
    the default registry report are inputs of every request.

    Python floats are written as the rationals they denote; counter values,
    which [prometheus_client] only ever moves by [inc()], are natural
    numbers. *)

From Stdlib Require Import ZArith QArith Ascii String Lia.
From stdpp Require Import base option list gmap strings pretty.

Set Warnings "-register-all,-clear-no-such-hyp".

Local Open Scope string_scope.
Local Open Scope N_scope.

(** ** Python values that travel as JSON *)

(** What [request.get_json()] can return and what [jsonify] is given:
    [None], [bool], [int], [float], [str], [list] and [dict] (a [dict] keeps
    the order in which its keys were written). *)
Inductive json : Type :=
| JNull
| JBool (b : bool)
| JInt (n : Z)
| JFloat (q : Q)
| JStr (s : string)
| JList (items : list json)
| JDict (fields : list (string * json)).

(** Python's truth value, the test behind [if not data]. *)
Definition truthy (v : json) : bool :=
  match v with
  | JNull => false
  | JBool b => b
  | JInt n => negb (n =? 0)%Z
  | JFloat q => negb (Qeq_bool q 0)
  | JStr s => match s with EmptyString => false | String _ _ => true end
  | JList items => match items with [] => false | _ :: _ => true end
  | JDict fields => match fields with [] => false | _ :: _ => true end
  end.

(** [d[key]] for a dict value; anything else has no fields. *)
Fixpoint assoc (key : string) (fields : list (string * json)) : option json :=
  match fields with
  | [] => None
  | (k, v) :: rest => if String.eqb k key then Some v else assoc key rest
  end.

Definition field (key : string) (v : json) : option json :=
  match v with
  | JDict fields => assoc key fields
  | _ => None
  end.

(** ** [datetime] and [isoformat] *)

Record datetime : Type := {
  year : N; month : N; day : N;
  hour : N; minute : N; second : N; microsecond : N }.

Definition is_leap (y : N) : bool :=
  ((y mod 4 =? 0) && negb (y mod 100 =? 0)) || (y mod 400 =? 0).

Definition days_in_month (y m : N) : N :=
  if m =? 2 then (if is_leap y then 29 else 28)
  else if (m =? 4) || (m =? 6) || (m =? 9) || (m =? 11) then 30
  else 31.

(** The ranges every [datetime] object satisfies (its constructor raises
    [ValueError] outside them). *)
Definition valid_datetime (d : datetime) : bool :=
  (1 <=? year d) && (year d <=? 9999) &&
  (1 <=? month d) && (month d <=? 12) &&
  (1 <=? day d) && (day d <=? days_in_month (year d) (month d)) &&
  (hour d <=? 23) && (minute d <=? 59) && (second d <=? 59) &&
  (microsecond d <=? 999999).

Definition digit_char (n : N) : ascii := ascii_of_N (48 + n mod 10).

(** [zpad w n] writes the [w] low decimal digits of [n]: the format
    ["%0wd"] for every [n] below [10^w], which the ranges above ensure at
    each use. *)
Fixpoint zpad (w : nat) (n : N) : string :=
  match w with
  | O => EmptyString
  | S w' => zpad w' (n / 10) +:+ String (digit_char n) EmptyString
  end.

(** [datetime.isoformat()] of a naive datetime: [YYYY-MM-DDTHH:MM:SS], and
    [.ffffff] after it when the microsecond is not zero. *)
Definition isoformat (d : datetime) : string :=
  zpad 4 (year d) +:+ "-" +:+ zpad 2 (month d) +:+ "-" +:+ zpad 2 (day d)
  +:+ "T" +:+ zpad 2 (hour d) +:+ ":" +:+ zpad 2 (minute d)
  +:+ ":" +:+ zpad 2 (second d)
  +:+ (if microsecond d =? 0 then "" else "." +:+ zpad 6 (microsecond d)).

(** *** Reading an ISO-8601 date-time back *)

Definition digit_val (c : ascii) : option N :=
  let n := N_of_ascii c in
  if (48 <=? n) && (n <=? 57) then Some (n - 48) else None.

(** Reads exactly [w] decimal digits off the front of [s], most significant
    first, on top of the value [acc] read so far. *)
Fixpoint take_digits (w : nat) (acc : N) (s : string) : option (N * string) :=
  match w with
  | O => Some (acc, s)
  | S w' =>
      match s with
      | EmptyString => None
      | String c rest =>
          match digit_val c with
          | Some v => take_digits w' (10 * acc + v) rest
          | None => None
          end
      end
  end.

Definition expect (c : ascii) (s : string) : option string :=
  match s with
  | String c' rest => if Ascii.eqb c c' then Some rest else None
  | EmptyString => None
  end.

(** The extended ISO-8601 calendar date and time of day, with an optional
    six-digit fraction of the second; the fields must be in range. *)
Definition parse_iso8601 (s : string) : option datetime :=
  '(y, s) ← take_digits 4 0 s; s ← expect "-" s;
  '(mo, s) ← take_digits 2 0 s; s ← expect "-" s;
  '(d, s) ← take_digits 2 0 s; s ← expect "T" s;
  '(h, s) ← take_digits 2 0 s; s ← expect ":" s;
  '(mi, s) ← take_digits 2 0 s; s ← expect ":" s;
  '(se, s) ← take_digits 2 0 s;
  '(us, s) ← match s with
              | EmptyString => Some (0, s)
              | _ => s ← expect "." s; take_digits 6 0 s
              end;
  match s with
  | EmptyString =>
      let r := {| year := y; month := mo; day := d; hour := h;
                  minute := mi; second := se; microsecond := us |} in
      if valid_datetime r then Some r else None
  | String _ _ => None
  end.

Definition well_formed_iso8601 (s : string) : Prop :=
  is_Some (parse_iso8601 s).

(** ** The metrics registry *)

(** A histogram child as [prometheus_client] keeps it: the running sum and
    one count per upper bound (not yet cumulative). *)
Record histogram : Type := { h_sum : Q; h_buckets : list N }.

(** [Histogram.DEFAULT_BUCKETS], each bound with the text of its [le] label;
    [None] is [+Inf]. *)
Definition DEFAULT_BUCKETS : list (string * option Q) :=
  [ ("0.005", Some 0.005%Q); ("0.01", Some 0.01%Q); ("0.025", Some 0.025%Q);
    ("0.05", Some 0.05%Q); ("0.075", Some 0.075%Q); ("0.1", Some 0.1%Q);
    ("0.25", Some 0.25%Q); ("0.5", Some 0.5%Q); ("0.75", Some 0.75%Q);
    ("1.0", Some 1%Q); ("2.5", Some 2.5%Q); ("5.0", Some 5%Q);
    ("7.5", Some 7.5%Q); ("10.0", Some 10%Q); ("+Inf", None) ].

Definition upper_bounds : list (option Q) := snd <$> DEFAULT_BUCKETS.

Definition new_histogram : histogram :=
  {| h_sum := 0%Q; h_buckets := (λ _, 0) <$> upper_bounds |}.

(** The three module-level metrics of [main.py], each a map from the tuple
    of label values to its child. *)
Record registry : Type := {
  REQUEST_COUNT : gmap (string * string * string) N;
  REQUEST_LATENCY : gmap (string * string) histogram;
  PREDICTIONS_COUNT : gmap string N }.

Definition empty_registry : registry :=
  {| REQUEST_COUNT := ∅; REQUEST_LATENCY := ∅; PREDICTIONS_COUNT := ∅ |}.

(** [metric.labels(...)]: the child of a label combination, made with the
    initial value the first time the combination is seen. *)
Definition labels `{Countable K} {V} (init : V) (k : K) (m : gmap K V) : gmap K V :=
  match m !! k with
  | Some _ => m
  | None => <[k := init]> m
  end.

(** [counter.labels(...).inc()] *)
Definition inc `{Countable K} (k : K) (m : gmap K N) : gmap K N :=
  alter (λ v, v + 1) k (labels 0 k m).

(** What a counter series reads; a series that was never made reads zero. *)
Definition value `{Countable K} (k : K) (m : gmap K N) : N :=
  default 0 (m !! k).

Definition le_bound (v : Q) (b : option Q) : bool :=
  match b with
  | Some q => Qle_bool v q
  | None => true
  end.

(** The loop of [Histogram.observe]: the first bucket whose bound is at
    least the amount gets one more, and the loop stops there. *)
Fixpoint observe_buckets (bounds : list (option Q)) (counts : list N) (v : Q) : list N :=
  match bounds, counts with
  | b :: bounds', c :: counts' =>
      if le_bound v b then (c + 1) :: counts'
      else c :: observe_buckets bounds' counts' v
  | _, _ => counts
  end.

Definition observe_child (v : Q) (h : histogram) : histogram :=
  {| h_sum := (h_sum h + v)%Q;
     h_buckets := observe_buckets upper_bounds (h_buckets h) v |}.

(** [histogram.labels(...).observe(v)] *)
Definition observe `{Countable K} (k : K) (v : Q) (m : gmap K histogram) : gmap K histogram :=
  alter (observe_child v) k (labels new_histogram k m).

(** How many observations a histogram child holds (its [_count] sample). *)
Definition h_count (h : histogram) : N := foldr N.add 0 (h_buckets h).

Definition observations `{Countable K} (k : K) (m : gmap K histogram) : N :=
  from_option h_count 0 (m !! k).

(** ** The text exposition *)

(** One line of [generate_latest()]: the sample name, its labels in the
    order the metric declares them, and the value. *)
Record sample : Type := {
  s_name : string; s_labels : list (string * string); s_value : Q }.

Definition Qofn (n : N) : Q := inject_Z (Z.of_N n).

Definition request_labels (k : string * string * string) : list (string * string) :=
  [("method", k.1.1); ("endpoint", k.1.2); ("status", k.2)].

Definition latency_labels (k : string * string) : list (string * string) :=
  [("method", k.1); ("endpoint", k.2)].

Definition model_labels (k : string) : list (string * string) := [("model", k)].

Definition counter_samples {K} `{Countable K} (name : string)
    (lbl : K → list (string * string)) (m : gmap K N) : list sample :=
  (λ kv, {| s_name := name; s_labels := lbl kv.1; s_value := Qofn kv.2 |})
    <$> map_to_list m.

(** Bucket counts are stored per bound and summed on the way out. *)
Fixpoint cumulative (acc : N) (counts : list N) : list N :=
  match counts with
  | [] => []
  | c :: rest => (acc + c) :: cumulative (acc + c) rest
  end.

Definition child_samples (name : string) (lbl : list (string * string))
    (h : histogram) : list sample :=
  zip_with (λ le c, {| s_name := name +:+ "_bucket";
                        s_labels := lbl ++ [("le", le)];
                        s_value := Qofn c |})
           (fst <$> DEFAULT_BUCKETS) (cumulative 0 (h_buckets h))
  ++ [ {| s_name := name +:+ "_count"; s_labels := lbl; s_value := Qofn (h_count h) |};
       {| s_name := name +:+ "_sum"; s_labels := lbl; s_value := h_sum h |} ].

Definition histogram_samples {K} `{Countable K} (name : string)
    (lbl : K → list (string * string)) (m : gmap K histogram) : list sample :=
  map_to_list m ≫= (λ kv, child_samples name (lbl kv.1) kv.2).

(** The names under which the three metrics of [main.py] are rendered. *)
Definition own_names : list string :=
  [ "http_requests_total";
    "http_request_duration_seconds_bucket";
    "http_request_duration_seconds_count";
    "http_request_duration_seconds_sum";
    "predictions_total" ].

(** [generate_latest()] renders the default registry.  [others] is all of
    it that is not a sample of [own_names]: what the process, platform and
    garbage-collector collectors that come with [prometheus_client] report
    at that moment, and the [_created] gauges of the three metrics.  With
    it come the three metrics of [main.py].  An exposition is read with
    [shows], which asks whether a sample is there, so the order of the list
    is of no account.  The call reads the registry and changes nothing. *)
Definition generate_latest (others : list sample) (reg : registry) : list sample :=
  others
  ++ counter_samples "http_requests_total" request_labels (REQUEST_COUNT reg)
  ++ histogram_samples "http_request_duration_seconds" latency_labels (REQUEST_LATENCY reg)
  ++ counter_samples "predictions_total" model_labels (PREDICTIONS_COUNT reg).

(** None of the samples bears one of [own_names]. *)
Definition foreign (others : list sample) : bool :=
  forallb (λ s, negb (existsb (String.eqb (s_name s)) own_names)) others.

(** The exposition shows value [v] for the series [name{lbl}]. *)
Definition shows (e : list sample) (name : string) (lbl : list (string * string)) (v : Q) : Prop :=
  {| s_name := name; s_labels := lbl; s_value := v |} ∈ e.

(** ** Requests and responses *)

(** The request body as [json.loads] sees it: no bytes at all, bytes it
    refuses (a [ValueError]; or a [RecursionError] for nesting too deep,
    which leaves [get_json] as it is and ends in the same [except]), or
    bytes it decodes to a value. *)
Inductive payload : Type :=
| NoBody
| Malformed
| Parsed (v : json).

Record request : Type := {
  method : string;       (* REQUEST_METHOD, an HTTP token as it was sent *)
  path : string;         (* PATH_INFO *)
  is_json : bool;        (* the Content-Type is a JSON one *)
  data : payload }.

Inductive content : Type :=
| Json (v : json)                   (* jsonify(v) *)
| Exposition (e : list sample)      (* the metrics text *)
| ErrorPage                         (* Werkzeug's page for an HTTP error *)
| NoContent.

Record response : Type := {
  body : content;
  status_code : N;
  content_type : string }.

Definition jsonify (v : json) (status : N) : response :=
  {| body := Json v; status_code := status; content_type := "application/json" |}.

Definition CONTENT_TYPE_LATEST : string := "text/plain; version=0.0.4; charset=utf-8".

(** What the process reads from outside while it handles one request:
    [time.time()] in [before_request] and in [after_request],
    [datetime.utcnow()] in the view, and what the default registry renders
    besides the three metrics of [main.py] when it is scraped. *)
Record clock : Type := {
  time_before : Q;
  time_after : Q;
  utcnow : datetime;
  collected : list sample }.

(** What Flask keeps on [request] while it handles it. *)
Record context : Type := {
  ctx_request : request;
  endpoint : option string;
  routing_exception : option N;
  start_time : option Q }.

(** ** Views run in a small monad: registry state and Python exceptions *)

Inductive exn : Type :=
| BadRequest
| UnsupportedMediaType
| NotFound.

Inductive outcome (A : Type) : Type :=
| Return (a : A)
| Raise (e : exn).
Arguments Return {A} a.
Arguments Raise {A} e.

Definition py (A : Type) : Type := registry → outcome A * registry.

#[local] Instance py_ret : MRet py := λ A a reg, (Return a, reg).

#[local] Instance py_bind : MBind py := λ A B f m reg,
  match m reg with
  | (Return a, reg') => f a reg'
  | (Raise e, reg') => (Raise e, reg')
  end.

Definition raise {A} (e : exn) : py A := λ reg, (Raise e, reg).

(** [try: m  except Exception as e: h e]; what [m] did to the registry before
    it raised stays done. *)
Definition try_except {A} (m : py A) (h : exn → py A) : py A := λ reg,
  match m reg with
  | (Return a, reg') => (Return a, reg')
  | (Raise e, reg') => h e reg'
  end.

Definition update (f : registry → registry) : py unit := λ reg, (Return tt, f reg).

Definition set_REQUEST_COUNT (f : gmap (string * string * string) N → gmap (string * string * string) N)
    (reg : registry) : registry :=
  {| REQUEST_COUNT := f (REQUEST_COUNT reg);
     REQUEST_LATENCY := REQUEST_LATENCY reg;
     PREDICTIONS_COUNT := PREDICTIONS_COUNT reg |}.

Definition set_REQUEST_LATENCY (f : gmap (string * string) histogram → gmap (string * string) histogram)
    (reg : registry) : registry :=
  {| REQUEST_COUNT := REQUEST_COUNT reg;
     REQUEST_LATENCY := f (REQUEST_LATENCY reg);
     PREDICTIONS_COUNT := PREDICTIONS_COUNT reg |}.

Definition set_PREDICTIONS_COUNT (f : gmap string N → gmap string N)
    (reg : registry) : registry :=
  {| REQUEST_COUNT := REQUEST_COUNT reg;
     REQUEST_LATENCY := REQUEST_LATENCY reg;
     PREDICTIONS_COUNT := f (PREDICTIONS_COUNT reg) |}.

(** ** The application *)

(** [Request.get_json()] with its default arguments asks first whether the
    Content-Type is JSON.  When it is not, Werkzeug before 2.1 returned
    [None]; since 2.1 it raises (a 400, then from 2.3 a 415).  The
    repository pins no version, so both behaviours are kept. *)
Inductive werkzeug : Type :=
| Before_2_1
| Since_2_1.

Section App.

Context (wz : werkzeug).

(** [request.get_json()]: bytes that do not decode make
    [on_json_loading_failed] raise [BadRequest]; the JSON [null] is [None]. *)
Definition get_json (req : request) : py json :=
  if is_json req then
    match data req with
    | Parsed v => mret v
    | NoBody | Malformed => raise BadRequest
    end
  else
    match wz with
    | Before_2_1 => mret JNull
    | Since_2_1 => raise UnsupportedMediaType
    end.

(** [@app.before_request] *)
Definition before_request (clk : clock) (ctx : context) : context :=
  {| ctx_request := ctx_request ctx;
     endpoint := endpoint ctx;
     routing_exception := routing_exception ctx;
     start_time := Some (time_before clk) |}.

(** [request.endpoint or 'unknown'] *)
Definition endpoint_or_unknown (ctx : context) : string :=
  match endpoint ctx with
  | Some (String c s) => String c s
  | Some EmptyString | None => "unknown"
  end.

(** [@app.after_request] *)
Definition after_request (clk : clock) (ctx : context) (resp : response)
    (reg : registry) : response * registry :=
  let reg1 :=
    match start_time ctx with
    | Some t0 =>
        let latency := (time_after clk - t0)%Q in
        set_REQUEST_LATENCY
          (observe (method (ctx_request ctx), endpoint_or_unknown ctx) latency) reg
    | None => reg
    end in
  let reg2 :=
    set_REQUEST_COUNT
      (inc (method (ctx_request ctx), endpoint_or_unknown ctx,
            pretty (status_code resp))) reg1 in
  (resp, reg2).

(** [health()] *)
Definition health (clk : clock) : response :=
  jsonify (JDict [ ("status", JStr "healthy");
                   ("timestamp", JStr (isoformat (utcnow clk)));
                   ("version", JStr "1.0.0") ]) 200.

Definition checks_json (checks : list (string * bool)) : json :=
  JDict ((λ kv, (kv.1, JBool kv.2)) <$> checks).

(** The body of [ready()] below the [checks] literal. *)
Definition ready_with (checks : list (string * bool)) (clk : clock) : response :=
  if forallb snd checks then
    jsonify (JDict [ ("status", JStr "ready");
                     ("checks", checks_json checks);
                     ("timestamp", JStr (isoformat (utcnow clk))) ]) 200
  else
    jsonify (JDict [ ("status", JStr "not ready");
                     ("checks", checks_json checks);
                     ("timestamp", JStr (isoformat (utcnow clk))) ]) 503.

(** [ready()] *)
Definition ready (clk : clock) : response :=
  let checks := [ ("model_loaded", true); ("aws_connection", true) ] in
  ready_with checks clk.

(** [metrics()] *)
Definition metrics (clk : clock) : py response := λ reg,
  (Return {| body := Exposition (generate_latest (collected clk) reg);
             status_code := 200;
             content_type := CONTENT_TYPE_LATEST |}, reg).

(** [predict()] *)
Definition predict (clk : clock) (req : request) : py response :=
  try_except
    (data ← get_json req;
     if negb (truthy data) then
       mret (jsonify (JDict [ ("error", JStr "No input data provided") ]) 400)
     else
       let result := JDict [ ("prediction", JStr "example_result");
                             ("confidence", JFloat 0.95%Q);
                             ("model_version", JStr "1.0.0");
                             ("timestamp", JStr (isoformat (utcnow clk))) ] in
       _ ← update (set_PREDICTIONS_COUNT (inc "v1"));
       mret (jsonify result 200))
    (λ e, mret (jsonify (JDict [ ("error", JStr "Internal server error") ]) 500)).

(** [index()] *)
Definition index : response :=
  jsonify (JDict [ ("service", JStr "iNFINITE AI 2025");
                   ("version", JStr "1.0.0");
                   ("endpoints", JDict [ ("health", JStr "/health");
                                         ("ready", JStr "/ready");
                                         ("metrics", JStr "/metrics");
                                         ("predict", JStr "/predict (POST)") ]) ]) 200.

(** *** Routing, as [Flask(__name__)] and [@app.route] set it up *)

(** A rule matches one path, or, like [/static/<path:filename>], any path
    that goes on after a prefix with a name that is not empty and does not
    begin with a slash. *)
Inductive pattern : Type :=
| Exactly (p : string)
| PathAfter (prefix : string).

Record rule : Type := {
  rule_path : pattern;
  rule_methods : list string;
  rule_endpoint : string }.

(** The rule [Flask(__name__)] makes for the static folder. *)
Definition static_rule : rule :=
  {| rule_path := PathAfter "/static/"; rule_methods := ["GET"]; rule_endpoint := "static" |}.

Definition health_rule : rule :=
  {| rule_path := Exactly "/health"; rule_methods := ["GET"]; rule_endpoint := "health" |}.

Definition ready_rule : rule :=
  {| rule_path := Exactly "/ready"; rule_methods := ["GET"]; rule_endpoint := "ready" |}.

Definition metrics_rule : rule :=
  {| rule_path := Exactly "/metrics"; rule_methods := ["GET"]; rule_endpoint := "metrics" |}.

Definition predict_rule : rule :=
  {| rule_path := Exactly "/predict"; rule_methods := ["POST"]; rule_endpoint := "predict" |}.

Definition index_rule : rule :=
  {| rule_path := Exactly "/"; rule_methods := ["GET"]; rule_endpoint := "index" |}.

Definition url_map : list rule :=
  [ static_rule; health_rule; ready_rule; metrics_rule; predict_rule; index_rule ].

Definition mem (s : string) (l : list string) : bool := existsb (String.eqb s) l.

(** Flask adds [HEAD] to a rule that takes [GET], and [OPTIONS] to all. *)
Definition allowed (r : rule) : list string :=
  rule_methods r
  ++ (if mem "GET" (rule_methods r) then ["HEAD"] else [])
  ++ ["OPTIONS"].

(** [str.upper()] on the letters of an HTTP token. *)
Definition upper_ascii (c : ascii) : ascii :=
  let n := N_of_ascii c in
  if (97 <=? n) && (n <=? 122) then ascii_of_N (n - 32) else c.

Fixpoint upper (s : string) : string :=
  match s with
  | EmptyString => EmptyString
  | String c rest => String (upper_ascii c) (upper rest)
  end.

(** [path_info.lstrip("/")] *)
Fixpoint lstrip_slashes (s : string) : string :=
  match s with
  | EmptyString => EmptyString
  | String c rest => if Ascii.eqb c "/" then lstrip_slashes rest else s
  end.

(** The path Werkzeug matches: the leading slashes of [PATH_INFO] brought
    down to one. *)
Definition path_part (path_info : string) : string :=
  match path_info with
  | EmptyString => EmptyString
  | String _ _ => String "/" (lstrip_slashes path_info)
  end.

(** [re.sub("/{2,}?", "/", path)]: the pattern is lazy, so it takes the
    slashes two at a time, from the left, and makes one of each two. *)
Fixpoint merge_slashes (s : string) : string :=
  match s with
  | EmptyString => EmptyString
  | String c rest =>
      match rest with
      | EmptyString => s
      | String c' rest' =>
          if Ascii.eqb c "/" && Ascii.eqb c' "/"
          then String "/" (merge_slashes rest')
          else String c (merge_slashes rest)
      end
  end.

Fixpoint strip_prefix (prefix s : string) : option string :=
  match prefix, s with
  | EmptyString, _ => Some s
  | String a prefix', String b s' =>
      if Ascii.eqb a b then strip_prefix prefix' s' else None
  | String _ _, EmptyString => None
  end.

Definition fits (pat : pattern) (p : string) : bool :=
  match pat with
  | Exactly q => String.eqb q p
  | PathAfter prefix =>
      match strip_prefix prefix p with
      | Some (String c _) => negb (Ascii.eqb c "/")
      | Some EmptyString | None => false
      end
  end.

(** The rule fits the path and takes the method. *)
Definition takes (r : rule) (p m : string) : bool :=
  fits (rule_path r) p && mem m (allowed r).

Inductive routing : Type :=
| Route (r : rule)
| RoutingException (code : N).

(** A rule whose path ends in a slash, as that of [index] does, asks for
    the slash: such a rule takes the path with a slash put after it. *)
Fixpoint ends_in_slash (s : string) : bool :=
  match s with
  | EmptyString => false
  | String c EmptyString => Ascii.eqb c "/"
  | String _ rest => ends_in_slash rest
  end.

Definition slash_required (p m : string) : bool :=
  existsb (λ r, match rule_path r with
                | Exactly q => ends_in_slash q && takes r (p +:+ "/") m
                | PathAfter _ => false
                end) url_map.

(** [MapAdapter.match], as the matcher of Werkzeug 2.2 and later goes about
    it: the rule for the path and the method.  When there is none, a rule
    that asks for a slash the path lacks is answered with a redirect (308);
    then the path is tried again with its slashes merged, and a rule found
    that way is answered with a redirect too; failing that, a rule that
    fits either path, but not the method, makes it a 405, and no rule at all
    a 404.  (The matcher of earlier versions gives another of these three
    codes on the empty path and on some of the paths with slashes in a
    row; it finds the same rule wherever this one finds a rule.) *)
Definition url_match (path_info m : string) : routing :=
  let p := path_part path_info in
  match find (λ r, takes r p m) url_map with
  | Some r => Route r
  | None =>
      if slash_required p m then RoutingException 308
      else
        let merged := merge_slashes p in
        match find (λ r, takes r merged m) url_map with
        | Some _ => RoutingException 308
        | None =>
            if slash_required merged m then RoutingException 308
            else if existsb (λ r, fits (rule_path r) p) url_map
                    || existsb (λ r, fits (rule_path r) merged) url_map
            then RoutingException 405
            else RoutingException 404
        end
  end.

(** The request as Werkzeug hands it to the application: [request.method]
    is in upper case. *)
Definition as_received (req : request) : request :=
  {| method := upper (method req); path := path req;
     is_json := is_json req; data := data req |}.

(** [RequestContext.match_request]: the matched rule gives the endpoint; a
    routing exception is kept for [dispatch_request] and leaves no
    endpoint. *)
Definition match_request (req : request) : context :=
  match url_match (path req) (upper (method req)) with
  | Route r =>
      {| ctx_request := as_received req; endpoint := Some (rule_endpoint r);
         routing_exception := None; start_time := None |}
  | RoutingException code =>
      {| ctx_request := as_received req; endpoint := None;
         routing_exception := Some code; start_time := None |}
  end.

Definition error_page (code : N) : response :=
  {| body := ErrorPage; status_code := code; content_type := "text/html; charset=utf-8" |}.

(** [send_static_file]: the repository has no [static] folder beside
    [main.py], so no file is ever found. *)
Definition send_static_file : py response := raise NotFound.

Definition view_functions (clk : clock) (req : request) : list (string * py response) :=
  [ ("static", send_static_file);
    ("health", mret (health clk));
    ("ready", mret (ready clk));
    ("metrics", metrics clk);
    ("predict", predict clk req);
    ("index", mret index) ].

Fixpoint lookup_view (name : string) (views : list (string * py response)) : option (py response) :=
  match views with
  | [] => None
  | (n, v) :: rest => if String.eqb n name then Some v else lookup_view name rest
  end.

(** [Flask.dispatch_request]: the routing exception if there is one, the
    automatic answer to [OPTIONS], the view otherwise.  A [HEAD] runs the
    view as a [GET] does; the body is left out only when the response is
    sent, after the hooks have seen it. *)
Definition dispatch_request (clk : clock) (ctx : context) : py response :=
  match routing_exception ctx, endpoint ctx with
  | Some code, _ => mret (error_page code)
  | None, Some name =>
      if String.eqb (method (ctx_request ctx)) "OPTIONS" then
        mret {| body := NoContent; status_code := 200;
                content_type := "text/html; charset=utf-8" |}
      else
        match lookup_view name (view_functions clk (ctx_request ctx)) with
        | Some view => view
        | None => mret (error_page 404)
        end
  | None, None => mret (error_page 404)
  end.

(** An HTTP exception that leaves a view becomes its error response. *)
Definition handle_user_exception (e : exn) : response :=
  match e with
  | BadRequest => error_page 400
  | UnsupportedMediaType => error_page 415
  | NotFound => error_page 404
  end.

(** One request through the application: the request context, the
    [before_request] hook, the view, the [after_request] hook. *)
Definition handle (clk : clock) (req : request) (reg : registry) : response * registry :=
  let ctx := before_request clk (match_request req) in
  let '(out, reg1) := dispatch_request clk ctx reg in
  let resp := match out with
              | Return r => r
              | Raise e => handle_user_exception e
              end in
  after_request clk ctx resp reg1.

(** A run of the process: requests handled one after the other, each with
    its own clock readings. *)
Fixpoint serve (reqs : list (clock * request)) (reg : registry) : registry :=
  match reqs with
  | [] => reg
  | (clk, req) :: rest => serve rest (handle clk req reg).2
  end.

End App.

Definition GET (p : string) : request :=
  {| method := "GET"; path := p; is_json := false; data := NoBody |}.

Definition POST (p : string) (json_type : bool) (d : payload) : request :=
  {| method := "POST"; path := p; is_json := json_type; data := d |}.

(** ** Notions the properties are stated with *)

(** The three ways [main.py] writes to the registry:
    [REQUEST_COUNT.labels(...).inc()],
    [REQUEST_LATENCY.labels(...).observe(v)] and
    [PREDICTIONS_COUNT.labels(...).inc()]. *)
Inductive operation : Type :=
| IncRequest (k : string * string * string)
| ObserveLatency (k : string * string) (v : Q)
| IncPrediction (k : string).

Definition perform (op : operation) (reg : registry) : registry :=
  match op with
  | IncRequest k => set_REQUEST_COUNT (inc k) reg
  | ObserveLatency k v => set_REQUEST_LATENCY (observe k v) reg
  | IncPrediction k => set_PREDICTIONS_COUNT (inc k) reg
  end.

Definition run (ops : list operation) (reg : registry) : registry :=
  foldl (λ r op, perform op r) reg ops.



(** The key of the request-counter series one request is counted under,
    and the key of its latency series. *)
Definition latency_key (req : request) : string * string :=
  (upper (method req), endpoint_or_unknown (match_request req)).

Definition counter_key (req : request) (resp : response) : string * string * string :=
  (upper (method req), endpoint_or_unknown (match_request req), pretty (status_code resp)).

(** A clock to run examples with: 14 July 2025, 09:30:05.000250 UTC, a
    request that took a quarter of a second, and two of the samples the
    collectors of [prometheus_client] add to a scrape. *)
Definition sample_clock : clock :=
  {| time_before := 1752485405%Q;
     time_after := 1752485405.25%Q;
     utcnow := {| year := 2025; month := 7; day := 14;
                  hour := 9; minute := 30; second := 5; microsecond := 250 |};
     collected :=
       [ {| s_name := "python_gc_collections_total";
            s_labels := [("generation", "0")]; s_value := 41%Q |};
         {| s_name := "process_cpu_seconds_total";
            s_labels := []; s_value := 0.5%Q |} ] |}.

Definition body_field (key : string) (resp : response) : option json :=
  match body resp with
  | Json v => field key v
  | _ => None
  end.

(** What C1 promises of a response: 200, and a body with the four fields,
    the confidence between 0 and 1. *)
Definition predict_ok (resp : response) : Prop :=
  status_code resp = 200
  ∧ ∃ p c v ts,
      body_field "prediction" resp = Some p
      ∧ body_field "confidence" resp = Some (JFloat c)
      ∧ (0 <= c)%Q ∧ (c <= 1)%Q
      ∧ body_field "model_version" resp = Some v
      ∧ body_field "timestamp" resp = Some ts.

Definition exposition_of (resp : response) : list sample :=
  match body resp with
  | Exposition e => e
  | _ => []
  end.

(** Two expositions show the same value for every counter series. *)
Definition same_counter_values (e1 e2 : list sample) : Prop :=
  ∀ name lbl v,
    name = "http_requests_total" ∨ name = "predictions_total" →
    (shows e1 name lbl v ↔ shows e2 name lbl v).

(** The series under which a [GET /metrics] is itself counted and timed. *)
Definition metrics_counter_key : string * string * string := ("GET", "metrics", "200").
Definition metrics_latency_key : string * string := ("GET", "metrics").

(** ** Notions for the rest of the service *)

(** The answer Flask makes up for [OPTIONS]. *)
Definition default_options_response : response :=
  {| body := NoContent; status_code := 200;
     content_type := "text/html; charset=utf-8" |}.

(** The ways a request can go through routing and the views: the endpoint
    label it is counted under, the response, and the registry the view
    leaves behind. *)
Inductive dispatched (wz : werkzeug) (clk : clock) (req : request) (reg : registry)
  : string → response → registry → Prop :=
| dispatched_routing_exception (code : N) :
    url_match (path req) (upper (method req)) = RoutingException code →
    dispatched wz clk req reg "unknown" (error_page code) reg
| dispatched_options (r : rule) :
    url_match (path req) (upper (method req)) = Route r →
    upper (method req) = "OPTIONS" →
    dispatched wz clk req reg (rule_endpoint r) default_options_response reg
| dispatched_static :
    url_match (path req) (upper (method req)) = Route static_rule →
    upper (method req) = "GET" ∨ upper (method req) = "HEAD" →
    dispatched wz clk req reg "static" (error_page 404) reg
| dispatched_health :
    url_match (path req) (upper (method req)) = Route health_rule →
    upper (method req) = "GET" ∨ upper (method req) = "HEAD" →
    dispatched wz clk req reg "health" (health clk) reg
| dispatched_ready :
    url_match (path req) (upper (method req)) = Route ready_rule →
    upper (method req) = "GET" ∨ upper (method req) = "HEAD" →
    dispatched wz clk req reg "ready" (ready clk) reg
| dispatched_metrics (resp : response) :
    url_match (path req) (upper (method req)) = Route metrics_rule →
    upper (method req) = "GET" ∨ upper (method req) = "HEAD" →
    metrics clk reg = (Return resp, reg) →
    dispatched wz clk req reg "metrics" resp reg
| dispatched_predict (resp : response) (reg1 : registry) :
    url_match (path req) (upper (method req)) = Route predict_rule →
    upper (method req) = "POST" →
    predict wz clk (as_received req) reg = (Return resp, reg1) →
    dispatched wz clk req reg "predict" resp reg1
| dispatched_index :
    url_match (path req) (upper (method req)) = Route index_rule →
    upper (method req) = "GET" ∨ upper (method req) = "HEAD" →
    dispatched wz clk req reg "index" index reg.

(** The values the [endpoint] and [status] labels can take. *)
Definition endpoint_labels : list string :=
  [ "static"; "health"; "ready"; "metrics"; "predict"; "index"; "unknown" ].

Definition status_labels : list string :=
  [ "200"; "308"; "400"; "404"; "405"; "500" ].

(** The request-counter series a request of the history falls under.  (The
    status of a response depends on neither the registry nor the clock, so
    it is read off a fresh registry.) *)
Definition series_of (wz : werkzeug) (cr : clock * request) : string * string * string :=
  counter_key cr.2 (handle wz cr.1 cr.2 empty_registry).1.

(** How many requests of a history fall under a request-counter series, and
    under a latency series. *)
Definition requests_under (wz : werkzeug) (k : string * string * string)
    (history : list (clock * request)) : N :=
  N.of_nat (length (filter (λ cr, series_of wz cr = k) history)).






(** ** Configuration and start-up *)

(** [logging._nameToLevel]: the level names the root logger knows. *)
Definition level_names : list (string * N) :=
  [ ("CRITICAL", 50); ("FATAL", 50); ("ERROR", 40); ("WARN", 30);
    ("WARNING", 30); ("INFO", 20); ("DEBUG", 10); ("NOTSET", 0) ].

(** What [logging.basicConfig(level=name)] makes of a level given as text:
    the level of that name, or nothing where it raises [ValueError]. *)
Fixpoint level_of (name : string) (names : list (string * N)) : option N :=
  match names with
  | [] => None
  | (n, l) :: rest => if String.eqb n name then Some l else level_of name rest
  end.

Section Startup.

(** Python's [int(text)]: the number, or nothing where it raises
    [ValueError]. *)
Context (int : string → option Z).

(** [os.getenv(name, default)]: a variable that is set, even to the empty
    string, wins over the default. *)
Definition getenv (environ : gmap string string) (name default : string) : string :=
  match environ !! name with
  | Some v => v
  | None => default
  end.

(** What importing the module settles: the level of the root logger and
    the module-level configuration. *)
Record config : Type := {
  LOG_LEVEL : N;
  AI_MODEL_PATH : string;
  AWS_REGION : string;
  MAX_WORKERS : Z }.

(** Importing the module: [logging.basicConfig] first, which fails on a
    level name it does not know, then the configuration, where a
    [MAX_WORKERS] that is no integer fails. *)
Definition load_config (environ : gmap string string) : option config :=
  level ← level_of (getenv environ "LOG_LEVEL" "INFO") level_names;
  workers ← int (getenv environ "MAX_WORKERS" "4");
  Some {| LOG_LEVEL := level;
          AI_MODEL_PATH := getenv environ "AI_MODEL_PATH" "/models";
          AWS_REGION := getenv environ "AWS_REGION" "us-east-1";
          MAX_WORKERS := workers |}.

(** The arguments of [app.run]. *)
Record run_args : Type := {
  host : string;
  port : Z;
  debug : bool }.

(** [main()]: the four lines it logs, which come out when the level of the
    root logger is [INFO] or below, and then either the call of [app.run]
    or the [ValueError] of a port that is no integer. *)
Definition main (cfg : config) (environ : gmap string string)
    : list string * option run_args :=
  let logged :=
    if LOG_LEVEL cfg <=? 20 then
      [ "Starting iNFINITE AI 2025";
        "AI Model Path: " +:+ AI_MODEL_PATH cfg;
        "AWS Region: " +:+ AWS_REGION cfg;
        "Max Workers: " +:+ pretty (MAX_WORKERS cfg) ]
    else [] in
  (logged,
   port ← int (getenv environ "PORT" "8080");
   metrics_port ← int (getenv environ "METRICS_PORT" "9090");
   Some {| host := "0.0.0.0"; port := port; debug := false |}).

(** The script: import, then [main()]. *)
Definition start (environ : gmap string string) : option (list string * option run_args) :=
  cfg ← load_config environ;
  Some (main cfg environ).

End Startup.

(** A reading of plain digit strings, to run examples of the start-up
    with. *)
Definition digits_value (s : string) : option Z :=
  match s with
  | EmptyString => None
  | String _ _ =>
      match take_digits (String.length s) 0 s with
      | Some (n, EmptyString) => Some (Z.of_N n)
      | _ => None
      end
  end.

(** ** Proof steps that recur *)

(** Two facts about where the router sent one request: they name the same
    rule, or the case at hand does not arise. *)
Ltac same_route :=
  repeat match goal with
         | E : url_match ?a ?b = _, H : url_match ?a ?b = _ |- _ =>
             rewrite E in H;
             first [ discriminate H | injection H as -> | injection H as <- | clear H ]
         end.

(** One method is not two. *)
Ltac same_method :=
  repeat match goal with
         | H : _ ∨ _ |- _ => destruct H as [H | H]
         end;
  try congruence.

(** * Properties *)

(** ** [isoformat] writes what an ISO-8601 reader reads back *)

Section Iso8601.

Lemma append_cons (x : ascii) (a b : string) :
  String x a +:+ b = String x (a +:+ b).
Proof. reflexivity. Qed.

Lemma append_empty_l (a : string) : "" +:+ a = a.
Proof. reflexivity. Qed.

Lemma append_assoc (a b c : string) : (a +:+ b) +:+ c = a +:+ (b +:+ c).
Proof.
  induction a as [|x a IH]; [reflexivity |].
  rewrite !append_cons. now f_equal.
Qed.

Lemma append_empty_r (a : string) : a +:+ "" = a.
Proof.
  induction a as [|x a IH]; [reflexivity |].
  rewrite append_cons. now f_equal.
Qed.

Lemma digit_val_char (n : N) : digit_val (digit_char n) = Some (n mod 10).
Proof.
  unfold digit_val, digit_char.
  assert (Hlt : n mod 10 < 10) by (apply N.mod_lt; discriminate).
  generalize dependent (n mod 10). intros m Hm.
  rewrite N_ascii_embedding by lia.
  replace (48 <=? 48 + m) with true by (symmetry; apply N.leb_le; lia).
  replace (48 + m <=? 57) with true by (symmetry; apply N.leb_le; lia).
  simpl. f_equal. lia.
Qed.

(** Reading [w] digits off what [zpad w n] wrote continues from the value
    read so far with [n] appended to it. *)
Lemma take_digits_zpad (w : nat) :
  ∀ (k : nat) (n acc : N) (rest : string),
    n < 10 ^ N.of_nat w →
    take_digits (w + k) acc (zpad w n +:+ rest)
    = take_digits k (acc * 10 ^ N.of_nat w + n) rest.
Proof.
  induction w as [|w IH]; intros k n acc rest Hn.
  - simpl in *. f_equal. lia.
  - cbn [zpad]. rewrite append_assoc, append_cons, append_empty_l.
    replace (S w + k)%nat with (w + S k)%nat by lia.
    assert (Hpow : 10 ^ N.of_nat (S w) = 10 * 10 ^ N.of_nat w).
    { rewrite Nat2N.inj_succ, N.pow_succ_r'. reflexivity. }
    rewrite IH.
    + cbn [take_digits]. rewrite digit_val_char. f_equal.
      rewrite Hpow. pose proof (N.div_mod n 10 ltac:(discriminate)). lia.
    + rewrite Hpow in Hn. apply N.Div0.div_lt_upper_bound. lia.
Qed.

Lemma take_zpad (w : nat) (n : N) (rest : string) :
  n < 10 ^ N.of_nat w →
  take_digits w 0 (zpad w n +:+ rest) = Some (n, rest).
Proof.
  intros Hn. pose proof (take_digits_zpad w 0 n 0 rest Hn) as H.
  rewrite Nat.add_0_r in H. rewrite H. reflexivity.
Qed.

Lemma valid_datetime_bounds (d : datetime) :
  valid_datetime d = true →
  year d < 10 ^ N.of_nat 4 ∧ month d < 10 ^ N.of_nat 2 ∧ day d < 10 ^ N.of_nat 2 ∧
  hour d < 10 ^ N.of_nat 2 ∧ minute d < 10 ^ N.of_nat 2 ∧
  second d < 10 ^ N.of_nat 2 ∧ microsecond d < 10 ^ N.of_nat 6.
Proof.
  unfold valid_datetime. rewrite !andb_true_iff, !N.leb_le.
  intros [[[[[[[[[_ Hy] _] Hmo] _] Hd] Hh] Hmi] Hs] Hus].
  assert (Hdim : days_in_month (year d) (month d) <= 31).
  { unfold days_in_month.
    repeat match goal with |- context [if ?b then _ else _] => destruct b end; lia. }
  change (10 ^ N.of_nat 4) with 10000. change (10 ^ N.of_nat 2) with 100.
  change (10 ^ N.of_nat 6) with 1000000. lia.
Qed.

(** The reader recovers exactly the date-time that was written. *)
Lemma parse_isoformat (d : datetime) :
  valid_datetime d = true → parse_iso8601 (isoformat d) = Some d.
Proof.
  intros Hv.
  destruct (valid_datetime_bounds d Hv) as (Hy & Hmo & Hd & Hh & Hmi & Hs & Hus).
  unfold parse_iso8601, isoformat.
  rewrite !append_cons, !append_empty_l.
  rewrite (take_zpad 4) by assumption. cbn [mbind option_bind expect Ascii.eqb Bool.eqb].
  do 4 (rewrite (take_zpad 2) by assumption; cbn [mbind option_bind expect Ascii.eqb Bool.eqb]).
  rewrite (take_zpad 2) by assumption. cbn [mbind option_bind].
  destruct d as [y mo dd h mi se us]; cbn [year month day hour minute second microsecond] in *.
  destruct (N.eqb_spec us 0) as [->|Hne].
  - cbn [mbind option_bind]. rewrite Hv. reflexivity.
  - cbn [mbind option_bind expect Ascii.eqb Bool.eqb].
    rewrite <- (append_empty_r (zpad 6 us)), (take_zpad 6) by assumption.
    cbn [mbind option_bind]. rewrite Hv. reflexivity.
Qed.

End Iso8601.

(** ** Counters and histograms *)

Section Metrics.

Context {K : Type} `{Countable K}.

Lemma lookup_labels_eq {V} (init : V) (k : K) (m : gmap K V) :
  labels init k m !! k = Some (default init (m !! k)).
Proof.
  unfold labels. destruct (m !! k) as [v|] eqn:E; simpl.
  - exact E.
  - apply lookup_insert_eq.
Qed.

Lemma lookup_labels_ne {V} (init : V) (k k' : K) (m : gmap K V) :
  k ≠ k' → labels init k m !! k' = m !! k'.
Proof.
  intros Hne. unfold labels. destruct (m !! k); [reflexivity |].
  now apply lookup_insert_ne.
Qed.

Lemma lookup_inc_eq (k : K) (m : gmap K N) :
  inc k m !! k = Some (value k m + 1).
Proof. unfold inc, value. now rewrite lookup_alter_eq, lookup_labels_eq. Qed.

Lemma lookup_inc_ne (k k' : K) (m : gmap K N) :
  k ≠ k' → inc k m !! k' = m !! k'.
Proof.
  intros Hne. unfold inc.
  rewrite lookup_alter_ne by assumption. now apply lookup_labels_ne.
Qed.

Lemma value_inc_eq (k : K) (m : gmap K N) : value k (inc k m) = value k m + 1.
Proof. unfold value at 1. now rewrite lookup_inc_eq. Qed.

Lemma value_inc_ne (k k' : K) (m : gmap K N) :
  k ≠ k' → value k' (inc k m) = value k' m.
Proof. intros Hne. unfold value. now rewrite lookup_inc_ne. Qed.



Lemma lookup_observe_ne (k k' : K) (v : Q) (m : gmap K histogram) :
  k ≠ k' → observe k v m !! k' = m !! k'.
Proof.
  intros Hne. unfold observe.
  rewrite lookup_alter_ne by assumption. now apply lookup_labels_ne.
Qed.

End Metrics.









(** ** What one request does to the registry *)

Section Handling.

Context (wz : werkzeug).

Lemma match_request_request (req : request) :
  ctx_request (match_request req) = as_received req.
Proof. unfold match_request. now destruct (url_match _ _). Qed.

(** [predict] always comes back with a response: 200 after counting one
    prediction for the model [v1], or 400 or 500 with the registry as it
    was. *)
Lemma predict_returns (clk : clock) (req : request) (reg : registry) :
  ∃ resp,
    predict wz clk req reg
    = (Return resp,
       if status_code resp =? 200 then set_PREDICTIONS_COUNT (inc "v1") reg else reg)
    ∧ (status_code resp = 200 ∨ status_code resp = 400 ∨ status_code resp = 500).
Proof.
  unfold predict, try_except, get_json, mbind, py_bind, mret, py_ret, raise, update.
  destruct (is_json req); [destruct (data req) as [| |v] | destruct wz];
    try destruct (truthy v);
    (eexists; split; [apply (f_equal2 pair); reflexivity | cbn; auto]).
Qed.

(** No view touches the request counter or the latency histogram. *)
Lemma dispatch_request_returns (clk : clock) (ctx : context) (reg : registry) :
  ∃ out reg',
    dispatch_request wz clk ctx reg = (out, reg')
    ∧ REQUEST_COUNT reg' = REQUEST_COUNT reg
    ∧ REQUEST_LATENCY reg' = REQUEST_LATENCY reg.
Proof.
  unfold dispatch_request.
  destruct (routing_exception ctx) as [code|]; [now eexists _, _ |].
  destruct (endpoint ctx) as [name|]; [| now eexists _, _].
  destruct (String.eqb _ "OPTIONS"); [now eexists _, _ |].
  unfold view_functions, lookup_view.
  repeat (destruct (String.eqb _ name); [try (now eexists _, _) |]);
    try (now eexists _, _).
  destruct (predict_returns clk (ctx_request ctx) reg) as (resp & Hp & _).
  rewrite Hp. eexists _, _. split; [reflexivity |].
  destruct (status_code resp =? 200); split; reflexivity.
Qed.

Lemma handle_registry (clk : clock) (req : request) (reg : registry) :
  let resp := (handle wz clk req reg).1 in
  let reg' := (handle wz clk req reg).2 in
  REQUEST_COUNT reg' = inc (counter_key req resp) (REQUEST_COUNT reg)
  ∧ REQUEST_LATENCY reg'
    = observe (latency_key req) (time_after clk - time_before clk)%Q (REQUEST_LATENCY reg).
Proof.
  unfold handle, counter_key, latency_key.
  destruct (dispatch_request_returns clk (before_request clk (match_request req)) reg)
    as (out & reg1 & Hd & Hc & Hl).
  rewrite Hd. unfold after_request.
  cbn [start_time before_request ctx_request fst snd].
  rewrite match_request_request. cbn [as_received method].
  unfold endpoint_or_unknown. cbn [endpoint before_request].
  cbn [set_REQUEST_COUNT set_REQUEST_LATENCY REQUEST_COUNT REQUEST_LATENCY].
  rewrite Hc, Hl. split; reflexivity.
Qed.




End Handling.

Section Frames.

Context {K : Type} `{Countable K}.


Lemma delete_observe (k : K) (v : Q) (m : gmap K histogram) :
  delete k (observe k v m) = delete k m.
Proof.
  apply map_eq. intros k'. destruct (decide (k = k')) as [->|Hne].
  - now rewrite !lookup_delete_eq.
  - rewrite !lookup_delete_ne by assumption. now apply lookup_observe_ne.
Qed.

End Frames.

Section Predictions.

Context (wz : werkzeug).

(** The views other than [predict] leave the predictions counter alone,
    and so do the hooks. *)
Lemma handle_predictions (clk : clock) (req : request) (reg : registry) :
  PREDICTIONS_COUNT (handle wz clk req reg).2 = PREDICTIONS_COUNT reg
  ∨ PREDICTIONS_COUNT (handle wz clk req reg).2 = inc "v1" (PREDICTIONS_COUNT reg).
Proof.
  unfold handle, dispatch_request.
  set (ctx := before_request clk (match_request req)).
  destruct (routing_exception ctx) as [code|]; [now left |].
  destruct (endpoint ctx) as [name|]; [| now left].
  destruct (String.eqb _ "OPTIONS"); [now left |].
  unfold view_functions, lookup_view.
  repeat (destruct (String.eqb _ name); [try (now left) |]); try (now left).
  destruct (predict_returns wz clk (ctx_request ctx) reg) as (resp & Hp & _).
  rewrite Hp. unfold after_request.
  destruct (status_code resp =? 200); destruct (start_time ctx); auto.
Qed.




Lemma handle_post_predict (clk : clock) (j : bool) (d : payload) (reg : registry) :
  ∃ resp,
    predict wz clk (POST "/predict" j d) reg
    = (Return resp,
       if status_code resp =? 200 then set_PREDICTIONS_COUNT (inc "v1") reg else reg)
    ∧ (status_code resp = 200 ∨ status_code resp = 400 ∨ status_code resp = 500)
    ∧ (handle wz clk (POST "/predict" j d) reg).1 = resp
    ∧ PREDICTIONS_COUNT (handle wz clk (POST "/predict" j d) reg).2
      = if status_code resp =? 200 then inc "v1" (PREDICTIONS_COUNT reg)
        else PREDICTIONS_COUNT reg.
Proof.
  destruct (predict_returns wz clk (POST "/predict" j d) reg) as (resp & Hp & Hs).
  exists resp. split; [exact Hp |]. split; [exact Hs |].
  assert (Hh : handle wz clk (POST "/predict" j d) reg
               = let '(out, reg1) := predict wz clk (POST "/predict" j d) reg in
                 after_request clk
                   (before_request clk (match_request (POST "/predict" j d)))
                   (match out with Return r => r | Raise e => handle_user_exception e end)
                   reg1) by reflexivity.
  rewrite Hh, Hp. unfold after_request. cbn [fst snd start_time before_request].
  split; [reflexivity |].
  destruct (status_code resp =? 200); reflexivity.
Qed.

End Predictions.

(** ** Where routing sends a request *)

Section Routing.

Lemma find_none_iff {A} (f : A → bool) (l : list A) :
  find f l = None ↔ ∀ x, x ∈ l → f x = false.
Proof.
  induction l as [|a l IH]; cbn.
  - split; [intros _ x Hx; inversion Hx | reflexivity].
  - destruct (f a) eqn:E.
    + split; [discriminate |]. intros H. rewrite (H a) in E by apply list_elem_of_here.
      discriminate E.
    + rewrite IH. split.
      * intros H x Hx. apply elem_of_cons in Hx as [-> | Hx]; auto.
      * intros H x Hx. apply H. now apply list_elem_of_further.
Qed.

Lemma mem_true_iff (s : string) (l : list string) : mem s l = true ↔ s ∈ l.
Proof.
  unfold mem. induction l as [|a l IH]; cbn.
  - split; [discriminate | intros H; inversion H].
  - rewrite orb_true_iff, IH, elem_of_cons, String.eqb_eq. tauto.
Qed.

Lemma mem_false_iff (s : string) (l : list string) : mem s l = false ↔ s ∉ l.
Proof.
  rewrite <- mem_true_iff. destruct (mem s l); split; congruence.
Qed.

(** A route is a rule of the map that fits the path and takes the method. *)
Lemma url_match_route (path_info m : string) (r : rule) :
  url_match path_info m = Route r →
  r ∈ url_map ∧ fits (rule_path r) (path_part path_info) = true
  ∧ mem m (allowed r) = true.
Proof.
  unfold url_match.
  destruct (find (λ r, takes r (path_part path_info) m) url_map)
    as [r'|] eqn:E.
  - intros [= <-]. apply find_some in E as [Hin Ht].
    apply andb_true_iff in Ht as [Hf Hm]. now rewrite list_elem_of_In.
  - destruct (slash_required _ m); [discriminate |].
    destruct (find (λ r, takes r (merge_slashes _) m) url_map);
      [discriminate |].
    destruct (slash_required _ m); [discriminate |].
    now destruct (existsb _ url_map || _).
Qed.

Lemma url_match_exception (path_info m : string) (code : N) :
  url_match path_info m = RoutingException code →
  code = 308 ∨ code = 404 ∨ code = 405.
Proof.
  unfold url_match.
  destruct (find (λ r, takes r (path_part path_info) m) url_map);
    [discriminate |].
  destruct (slash_required _ m); [intros [= <-]; auto |].
  destruct (find (λ r, takes r (merge_slashes _) m) url_map);
    [intros [= <-]; auto |].
  destruct (slash_required _ m); [intros [= <-]; auto |].
  destruct (existsb _ url_map || _); intros [= <-]; auto.
Qed.


Lemma in_url_map (r : rule) :
  r ∈ url_map ↔
  r = static_rule ∨ r = health_rule ∨ r = ready_rule ∨ r = metrics_rule
  ∨ r = predict_rule ∨ r = index_rule.
Proof.
  unfold url_map. rewrite !elem_of_cons, elem_of_nil. tauto.
Qed.

(** The route to a rule that is matched by one path. *)
Lemma url_match_exactly (path_info m q : string) (r : rule) :
  r ∈ url_map → rule_path r = Exactly q →
  path_part path_info = q → m ∈ allowed r →
  url_match path_info m = Route r.
Proof.
  intros Hin Hq Hp Hm. apply mem_true_iff in Hm. unfold url_match. rewrite Hp.
  apply in_url_map in Hin as [-> | [-> | [-> | [-> | [-> | ->]]]]];
    cbn in Hq; injection Hq as <- || discriminate Hq;
    unfold url_map, takes; cbn [find fits rule_path health_rule ready_rule
      metrics_rule predict_rule index_rule static_rule strip_prefix String.eqb
      Ascii.eqb Bool.eqb andb];
    now rewrite Hm.
Qed.



End Routing.

(** ** One request, case by case *)

Section Dispatch.

Context (wz : werkzeug).

Lemma allowed_get (r : rule) (m : string) :
  rule_methods r = ["GET"] → m ∈ allowed r → m ≠ "OPTIONS" →
  m = "GET" ∨ m = "HEAD".
Proof.
  unfold allowed. intros ->. cbn. rewrite !elem_of_cons, elem_of_nil. tauto.
Qed.

Lemma allowed_post (r : rule) (m : string) :
  rule_methods r = ["POST"] → m ∈ allowed r → m ≠ "OPTIONS" → m = "POST".
Proof.
  unfold allowed. intros ->. cbn. rewrite !elem_of_cons, elem_of_nil. tauto.
Qed.

(** What [handle] does, by the way the request went: the two hooks around
    the response, on the registry the view left. *)
Lemma handle_dispatched (clk : clock) (req : request) (reg : registry) :
  ∃ ep resp reg1,
    dispatched wz clk req reg ep resp reg1
    ∧ endpoint_or_unknown (match_request req) = ep
    ∧ handle wz clk req reg
      = (resp,
         run [ ObserveLatency (upper (method req), ep)
                 (time_after clk - time_before clk)%Q;
               IncRequest (upper (method req), ep, pretty (status_code resp)) ]
           reg1).
Proof.
  unfold handle, match_request.
  destruct (url_match (path req) (upper (method req))) as [r|code] eqn:E.
  - destruct (url_match_route _ _ _ E) as (Hin & _ & Hm).
    apply mem_true_iff in Hm.
    unfold dispatch_request.
    cbn [before_request routing_exception endpoint ctx_request].
    change (method (as_received req)) with (upper (method req)).
    destruct (String.eqb_spec (upper (method req)) "OPTIONS") as [Ho|Ho].
    + exists (rule_endpoint r), default_options_response, reg.
      split; [now apply dispatched_options |].
      apply in_url_map in Hin as [-> | [-> | [-> | [-> | [-> | ->]]]]];
        (split; reflexivity).
    + apply in_url_map in Hin as [-> | [-> | [-> | [-> | [-> | ->]]]]].
      * exists "static", (error_page 404), reg.
        split; [apply dispatched_static; [exact E | now apply (allowed_get static_rule)] |].
        split; reflexivity.
      * exists "health", (health clk), reg.
        split; [apply dispatched_health; [exact E | now apply (allowed_get health_rule)] |].
        split; reflexivity.
      * exists "ready", (ready clk), reg.
        split; [apply dispatched_ready; [exact E | now apply (allowed_get ready_rule)] |].
        split; reflexivity.
      * eexists "metrics", _, reg.
        split; [apply dispatched_metrics;
                [exact E | now apply (allowed_get metrics_rule) | reflexivity] |].
        split; reflexivity.
      * destruct (predict_returns wz clk (as_received req) reg) as (resp & Hp & _).
        eexists "predict", resp, _.
        split; [apply dispatched_predict;
                [exact E | now apply (allowed_post predict_rule) | exact Hp] |].
        split; [reflexivity |].
        cbn [lookup_view view_functions rule_endpoint predict_rule String.eqb
             Ascii.eqb Bool.eqb].
        now rewrite Hp.
      * exists "index", index, reg.
        split; [apply dispatched_index; [exact E | now apply (allowed_get index_rule)] |].
        split; reflexivity.
  - exists "unknown", (error_page code), reg.
    split; [now apply dispatched_routing_exception |]. split; reflexivity.
Qed.

End Dispatch.

(** ** The endpoint a request is counted under *)

Lemma strip_prefix_none (pre s : string) :
  String.prefix pre s = false → strip_prefix pre s = None.
Proof.
  revert s. induction pre as [|a pre IH]; intros [|b s]; cbn; try discriminate;
    try reflexivity.
  destruct (ascii_dec a b) as [->|Hne].
  - rewrite Ascii.eqb_refl. apply IH.
  - intros _. now rewrite (proj2 (Ascii.eqb_neq a b) Hne).
Qed.

(** The paths each rule of the map fits. *)
Lemma fits_url_map (r : rule) (p : string) :
  r ∈ url_map → fits (rule_path r) p = true →
  (r = static_rule ∧ String.prefix "/static/" p = true)
  ∨ (r = health_rule ∧ p = "/health")
  ∨ (r = ready_rule ∧ p = "/ready")
  ∨ (r = metrics_rule ∧ p = "/metrics")
  ∨ (r = predict_rule ∧ p = "/predict")
  ∨ (r = index_rule ∧ p = "/").
Proof.
  intros Hin Hf.
  apply in_url_map in Hin as [-> | [-> | [-> | [-> | [-> | ->]]]]];
    cbn [fits rule_path static_rule health_rule ready_rule metrics_rule
         predict_rule index_rule] in Hf;
    try (apply String.eqb_eq in Hf; subst p; tauto).
  left. split; [reflexivity |].
  destruct (String.prefix "/static/" p) eqn:E; [reflexivity |].
  now rewrite (strip_prefix_none _ _ E) in Hf.
Qed.




(** * The service's contract *)




(** C10.  A [POST /predict] adds exactly one to the predictions counter of
    the model [v1] if and only if it is answered 200; answered 400 or 500,
    it leaves that metric as it was.  No other status is possible. *)
Theorem predictions_counted_iff_200
    (wz : werkzeug) (clk : clock) (j : bool) (d : payload) (reg : registry) :
  let resp := (handle wz clk (POST "/predict" j d) reg).1 in
  let reg' := (handle wz clk (POST "/predict" j d) reg).2 in
  (status_code resp = 200 ∨ status_code resp = 400 ∨ status_code resp = 500)
  ∧ PREDICTIONS_COUNT reg'
    = (if status_code resp =? 200 then inc "v1" (PREDICTIONS_COUNT reg)
       else PREDICTIONS_COUNT reg)
  ∧ (value "v1" (PREDICTIONS_COUNT reg') = value "v1" (PREDICTIONS_COUNT reg) + 1
     ↔ status_code resp = 200).
Proof.
  intros resp reg'.
  destruct (handle_post_predict wz clk j d reg) as (r & _ & Hs & Hr & Hp).
  fold resp in Hr. fold reg' in Hp. subst r.
  split; [exact Hs |]. split; [exact Hp |].
  rewrite Hp. destruct (N.eqb_spec (status_code resp) 200) as [E|E].
  - rewrite value_inc_eq. tauto.
  - split; [lia | contradiction].
Qed.

(** C5.  [GET /health] is answered 200 in every state of the registry, with
    the status [healthy], the version [1.0.0] and a timestamp that an
    ISO-8601 reader reads back as the UTC date-time the clock gave. *)
Theorem health_always_ok
    (wz : werkzeug) (clk : clock) (j : bool) (d : payload) (reg : registry) :
  valid_datetime (utcnow clk) = true →
  let resp := (handle wz clk {| method := "GET"; path := "/health";
                                is_json := j; data := d |} reg).1 in
  status_code resp = 200
  ∧ ∃ ts, body resp = Json (JDict [ ("status", JStr "healthy");
                                     ("timestamp", JStr ts);
                                     ("version", JStr "1.0.0") ])
          ∧ parse_iso8601 ts = Some (utcnow clk).
Proof.
  intros Hv resp. split; [reflexivity |].
  exists (isoformat (utcnow clk)). split; [reflexivity |].
  now apply parse_isoformat.
Qed.

Lemma health_always_ok_witness :
  valid_datetime (utcnow sample_clock) = true
  ∧ status_code (handle Since_2_1 sample_clock (GET "/health") empty_registry).1 = 200
  ∧ ∃ ts, body (handle Since_2_1 sample_clock (GET "/health") empty_registry).1
          = Json (JDict [ ("status", JStr "healthy");
                          ("timestamp", JStr ts);
                          ("version", JStr "1.0.0") ])
          ∧ parse_iso8601 ts = Some (utcnow sample_clock).
Proof.
  split; [reflexivity |].
  apply (health_always_ok Since_2_1 sample_clock false NoBody empty_registry).
  reflexivity.
Defined.

(** C6.  The answer of the readiness code is a function of the [checks]
    mapping alone: it is 200 with the status [ready] exactly when every
    check is true, and 503 with [not ready] exactly when some check is
    false; either way the body carries the mapping, name by name, under
    [checks], and the timestamp.  [GET /ready] is that code run on the
    mapping written in the source. *)
Theorem ready_status_follows_checks (checks : list (string * bool)) (clk : clock) :
  let resp := ready_with checks clk in
  let reported := JDict ((λ kv, (kv.1, JBool kv.2)) <$> checks) in
  (status_code resp = 200 ∨ status_code resp = 503)
  ∧ (status_code resp = 200 ↔ ∀ name b, (name, b) ∈ checks → b = true)
  ∧ (status_code resp = 503 ↔ ∃ name, (name, false) ∈ checks)
  ∧ (status_code resp = 200 →
       body resp = Json (JDict [ ("status", JStr "ready");
                                 ("checks", reported);
                                 ("timestamp", JStr (isoformat (utcnow clk))) ]))
  ∧ (status_code resp = 503 →
       body resp = Json (JDict [ ("status", JStr "not ready");
                                 ("checks", reported);
                                 ("timestamp", JStr (isoformat (utcnow clk))) ]))
  ∧ ∀ wz j d reg,
      (handle wz clk {| method := "GET"; path := "/ready";
                        is_json := j; data := d |} reg).1
      = ready_with [ ("model_loaded", true); ("aws_connection", true) ] clk.
Proof.
  intros resp reported.
  assert (Hall : forallb snd checks = true ↔ ∀ name b, (name, b) ∈ checks → b = true).
  { rewrite forallb_forall. split.
    - intros Hf name b Hin. apply list_elem_of_In in Hin. exact (Hf _ Hin).
    - intros Hf [name b] Hin. apply list_elem_of_In in Hin. exact (Hf _ _ Hin). }
  assert (Hsome : forallb snd checks = false ↔ ∃ name, (name, false) ∈ checks).
  { clear. induction checks as [|[name b] checks IH]; simpl.
    - split; [discriminate | intros [name Hin]; inversion Hin].
    - destruct b; simpl.
      + rewrite IH. split.
        * intros [n Hn]. exists n. now right.
        * intros [n Hn]. inversion Hn; subst. exists n. assumption.
      + split; [| reflexivity]. intros _. exists name. left. }
  subst resp. unfold ready_with.
  destruct (forallb snd checks) eqn:E; cbn [jsonify status_code body].
  - split; [now left |]. split; [now rewrite <- Hall |].
    split; [rewrite <- Hsome; split; discriminate |].
    split; [reflexivity |]. split; [discriminate | reflexivity].
  - split; [now right |]. split; [rewrite <- Hall; split; discriminate |].
    split; [now rewrite <- Hsome |].
    split; [discriminate |]. split; reflexivity.
Qed.

(** C9.  Both readiness checks are the constant [True], so [GET /ready] is
    always answered 200 with [ready] and both checks true, and never 503. *)
Theorem ready_never_503
    (wz : werkzeug) (clk : clock) (j : bool) (d : payload) (reg : registry) :
  let resp := (handle wz clk {| method := "GET"; path := "/ready";
                                is_json := j; data := d |} reg).1 in
  status_code resp = 200
  ∧ status_code resp ≠ 503
  ∧ body resp = Json (JDict [ ("status", JStr "ready");
                              ("checks", JDict [ ("model_loaded", JBool true);
                                                 ("aws_connection", JBool true) ]);
                              ("timestamp", JStr (isoformat (utcnow clk))) ]).
Proof. intros resp. split; [reflexivity |]. split; [discriminate | reflexivity]. Qed.

(** C1, as the code has it.  A [POST /predict] with a JSON Content-Type
    whose body [json.loads] decodes to a JSON object with at least one
    member is answered 200 with the four fields, the prediction
    [example_result] and the confidence 0.95; so is the body [{"x": 1}]. *)
Theorem predict_nonempty_object_ok
    (wz : werkzeug) (clk : clock) (member : string * json)
    (members : list (string * json)) (reg : registry) :
  let resp := (handle wz clk (POST "/predict" true (Parsed (JDict (member :: members)))) reg).1 in
  predict_ok resp
  ∧ body_field "prediction" resp = Some (JStr "example_result")
  ∧ body_field "confidence" resp = Some (JFloat 0.95%Q).
Proof.
  intros resp. split; [| split; reflexivity].
  split; [reflexivity |].
  exists (JStr "example_result"), 0.95%Q, (JStr "1.0.0"), (JStr (isoformat (utcnow clk))).
  repeat split; try reflexivity; apply Qle_bool_iff; reflexivity.
Qed.

(** The empty object is a valid JSON object too, and [if not data] turns it
    away with a 400. *)
Lemma predict_empty_object_rejected :
  ¬ predict_ok
      (handle Since_2_1 sample_clock (POST "/predict" true (Parsed (JDict []))) empty_registry).1
  ∧ (handle Since_2_1 sample_clock (POST "/predict" true (Parsed (JDict []))) empty_registry).1
    = jsonify (JDict [ ("error", JStr "No input data provided") ]) 400.
Proof.
  split; [| reflexivity].
  intros [Hs _]. vm_compute in Hs. discriminate Hs.
Qed.

(** C2, on the code.  With a JSON Content-Type, a body that is missing or
    does not decode makes [get_json()] raise inside the [try], and the
    [except] answers 500, not the 400 of the [if not data] branch. *)
Theorem predict_unparsable_is_500 (wz : werkzeug) (clk : clock) (reg : registry) :
  (handle wz clk (POST "/predict" true Malformed) reg).1
  = jsonify (JDict [ ("error", JStr "Internal server error") ]) 500
  ∧ (handle wz clk (POST "/predict" true NoBody) reg).1
    = jsonify (JDict [ ("error", JStr "Internal server error") ]) 500.
Proof. split; reflexivity. Qed.

(** Without a JSON Content-Type the answer depends on the Werkzeug at hand:
    the 400 with [No input data provided] before 2.1, the same 500 since. *)
Lemma predict_without_json_type (clk : clock) (d : payload) (reg : registry) :
  (handle Before_2_1 clk (POST "/predict" false d) reg).1
  = jsonify (JDict [ ("error", JStr "No input data provided") ]) 400
  ∧ (handle Since_2_1 clk (POST "/predict" false d) reg).1
    = jsonify (JDict [ ("error", JStr "Internal server error") ]) 500.
Proof. split; reflexivity. Qed.

(** ** What the exposition shows *)

Lemma Qofn_inj (a b : N) : Qofn a = Qofn b → a = b.
Proof. unfold Qofn, inject_Z. intros E. injection E as E. lia. Qed.

Section Exposition.

Context {K : Type} `{Countable K}.

(** A counter series is shown with the value it holds, and only with it. *)
Lemma shows_counter_samples (name : string) (lbl : K → list (string * string))
    (m : gmap K N) (k : K) (v : Q) :
  (∀ a b, lbl a = lbl b → a = b) →
  shows (counter_samples name lbl m) name (lbl k) v
  ↔ ∃ n, m !! k = Some n ∧ v = Qofn n.
Proof.
  intros Hinj. unfold shows, counter_samples. rewrite list_elem_of_fmap. split.
  - intros ([k' n] & E & Hin). cbn [fst snd] in E. injection E as El Ev.
    apply Hinj in El. subst k'. apply elem_of_map_to_list in Hin. now exists n.
  - intros (n & Hk & ->). exists (k, n). split; [reflexivity |].
    now apply elem_of_map_to_list.
Qed.

Lemma counter_samples_name (name : string) (lbl : K → list (string * string))
    (m : gmap K N) (s : sample) :
  s ∈ counter_samples name lbl m → s_name s = name.
Proof.
  unfold counter_samples. rewrite list_elem_of_fmap. now intros (kv & -> & _).
Qed.

Lemma histogram_samples_name (name : string) (lbl : K → list (string * string))
    (m : gmap K histogram) (s : sample) :
  s ∈ histogram_samples name lbl m →
  s_name s = name +:+ "_bucket" ∨ s_name s = name +:+ "_count"
  ∨ s_name s = name +:+ "_sum".
Proof.
  unfold histogram_samples. rewrite list_elem_of_bind.
  intros (kv & Hin & _). unfold child_samples in Hin.
  apply elem_of_app in Hin as [Hin | Hin].
  - apply elem_of_zip_with in Hin as (le & c & -> & _). now left.
  - apply elem_of_cons in Hin as [-> | Hin]; [now right; left |].
    apply elem_of_cons in Hin as [-> | Hin]; [now right; right |].
    inversion Hin.
Qed.

End Exposition.

Lemma request_labels_inj (a b : string * string * string) :
  request_labels a = request_labels b → a = b.
Proof.
  destruct a as [[m1 e1] s1], b as [[m2 e2] s2].
  unfold request_labels. cbn [fst snd]. now intros [= -> -> ->].
Qed.

Lemma model_labels_inj (a b : string) : model_labels a = model_labels b → a = b.
Proof. unfold model_labels. now intros [= ->]. Qed.

(** No sample of the other collectors bears a name of the three metrics. *)
Lemma foreign_name (others : list sample) (s : sample) :
  foreign others = true → s ∈ others → s_name s ∉ own_names.
Proof.
  unfold foreign. rewrite forallb_forall. intros Hf Hin.
  apply list_elem_of_In, Hf, negb_true_iff in Hin.
  now apply mem_false_iff in Hin.
Qed.

(** The exposition shows a request-counter series exactly with the value the
    registry holds for it. *)
Lemma shows_request_count (others : list sample) (reg : registry)
    (k : string * string * string) (v : Q) :
  foreign others = true →
  shows (generate_latest others reg) "http_requests_total" (request_labels k) v
  ↔ ∃ n, REQUEST_COUNT reg !! k = Some n ∧ v = Qofn n.
Proof.
  intros Hf.
  rewrite <- (shows_counter_samples "http_requests_total" request_labels
                (REQUEST_COUNT reg) k v request_labels_inj).
  unfold shows, generate_latest. rewrite !elem_of_app. split; [| now right; left].
  intros [Hin | [Hin | [Hin | Hin]]]; [exfalso | exact Hin | exfalso ..].
  - apply (foreign_name _ _ Hf Hin). cbn [s_name]. unfold own_names. set_solver.
  - apply histogram_samples_name in Hin. cbn [s_name] in Hin.
    destruct Hin as [E | [E | E]]; discriminate E.
  - apply counter_samples_name in Hin. discriminate Hin.
Qed.

Lemma shows_predictions (others : list sample) (reg : registry) (k : string) (v : Q) :
  foreign others = true →
  shows (generate_latest others reg) "predictions_total" (model_labels k) v
  ↔ ∃ n, PREDICTIONS_COUNT reg !! k = Some n ∧ v = Qofn n.
Proof.
  intros Hf.
  rewrite <- (shows_counter_samples "predictions_total" model_labels
                (PREDICTIONS_COUNT reg) k v model_labels_inj).
  unfold shows, generate_latest. rewrite !elem_of_app.
  split; [| now right; right; right].
  intros [Hin | [Hin | [Hin | Hin]]]; [exfalso | exfalso | exfalso | exact Hin].
  - apply (foreign_name _ _ Hf Hin). cbn [s_name]. unfold own_names. set_solver.
  - apply counter_samples_name in Hin. discriminate Hin.
  - apply histogram_samples_name in Hin. cbn [s_name] in Hin.
    destruct Hin as [E | [E | E]]; discriminate E.
Qed.

(** C3, as the code has it.  [generate_latest()] changes nothing in the
    registry, and the answer of a [GET /metrics] is the exposition of the
    registry as the request found it.  The hooks then count and time that
    request like any other: of two calls in a row, the second shows the
    series [http_requests_total{GET, metrics, 200}] one above what it read
    before the first, and every other series of [http_requests_total] and of
    [predictions_total] with the value the first showed; the first call
    leaves every latency series but [{GET, metrics}] as it was, and that one
    with one observation more.  What the other collectors of the registry
    report at the two scrapes is left open, but for the names of its
    samples. *)
Theorem metrics_twice (wz : werkzeug) (clk1 clk2 : clock) (reg : registry) :
  foreign (collected clk1) = true →
  foreign (collected clk2) = true →
  let r1 := handle wz clk1 (GET "/metrics") reg in
  let r2 := handle wz clk2 (GET "/metrics") r1.2 in
  let e1 := exposition_of r1.1 in
  let e2 := exposition_of r2.1 in
  (metrics clk1 reg).2 = reg
  ∧ e1 = generate_latest (collected clk1) reg
  ∧ e2 = generate_latest (collected clk2) r1.2
  ∧ REQUEST_COUNT r1.2 = inc metrics_counter_key (REQUEST_COUNT reg)
  ∧ PREDICTIONS_COUNT r1.2 = PREDICTIONS_COUNT reg
  ∧ REQUEST_LATENCY r1.2
    = observe metrics_latency_key (time_after clk1 - time_before clk1)%Q (REQUEST_LATENCY reg)
  ∧ delete metrics_latency_key (REQUEST_LATENCY r1.2)
    = delete metrics_latency_key (REQUEST_LATENCY reg)
  ∧ (∀ k v, k ≠ metrics_counter_key →
       (shows e1 "http_requests_total" (request_labels k) v
        ↔ shows e2 "http_requests_total" (request_labels k) v))
  ∧ (∀ k v, shows e1 "predictions_total" (model_labels k) v
            ↔ shows e2 "predictions_total" (model_labels k) v)
  ∧ (∀ v, shows e2 "http_requests_total" (request_labels metrics_counter_key) v
          ↔ v = Qofn (value metrics_counter_key (REQUEST_COUNT reg) + 1)).
Proof.
  intros Hf1 Hf2 r1 r2 e1 e2.
  assert (He1 : e1 = generate_latest (collected clk1) reg) by reflexivity.
  assert (He2 : e2 = generate_latest (collected clk2) r1.2) by reflexivity.
  destruct (handle_registry wz clk1 (GET "/metrics") reg) as [Hc Hl].
  fold r1 in Hc, Hl.
  assert (Hck : counter_key (GET "/metrics") r1.1 = metrics_counter_key) by reflexivity.
  assert (Hlk : latency_key (GET "/metrics") = metrics_latency_key) by reflexivity.
  rewrite Hck in Hc. rewrite Hlk in Hl.
  assert (Hp : PREDICTIONS_COUNT r1.2 = PREDICTIONS_COUNT reg) by reflexivity.
  split; [reflexivity |]. split; [exact He1 |]. split; [exact He2 |].
  split; [exact Hc |]. split; [exact Hp |]. split; [exact Hl |].
  split; [rewrite Hl; apply delete_observe |].
  rewrite He1, He2. split; [| split].
  - intros k v Hne. rewrite !shows_request_count, Hc by assumption.
    now rewrite lookup_inc_ne by (intros E; apply Hne; now symmetry).
  - intros k v. now rewrite !shows_predictions, Hp by assumption.
  - intros v. rewrite shows_request_count, Hc, lookup_inc_eq by assumption. split.
    + now intros (n & [= <-] & ->).
    + intros ->. now eexists.
Qed.

Lemma metrics_twice_witness :
  foreign (collected sample_clock) = true
  ∧ ∀ v,
      shows
        (exposition_of
           (handle Since_2_1 sample_clock (GET "/metrics")
              (handle Since_2_1 sample_clock (GET "/metrics") empty_registry).2).1)
        "http_requests_total" (request_labels metrics_counter_key) v
      ↔ v = Qofn 1.
Proof.
  split; [reflexivity |].
  apply (metrics_twice Since_2_1 sample_clock sample_clock empty_registry
           eq_refl eq_refl).
Defined.

(** From a fresh registry the first exposition shows no series of the two
    counters at all and the second shows the first call, counted once; the
    first call has also made and filled its latency series. *)
Lemma metrics_counts_itself :
  ¬ same_counter_values
      (exposition_of (handle Since_2_1 sample_clock (GET "/metrics") empty_registry).1)
      (exposition_of
         (handle Since_2_1 sample_clock (GET "/metrics")
            (handle Since_2_1 sample_clock (GET "/metrics") empty_registry).2).1)
  ∧ REQUEST_LATENCY (handle Since_2_1 sample_clock (GET "/metrics") empty_registry).2
    ≠ REQUEST_LATENCY empty_registry.
Proof.
  split.
  - intros Hsame.
    specialize (Hsame "http_requests_total" (request_labels metrics_counter_key)
                  (Qofn 1) (or_introl eq_refl)).
    apply proj2 in Hsame.
    assert (Hin : shows (exposition_of (handle Since_2_1 sample_clock (GET "/metrics") empty_registry).1)
                    "http_requests_total" (request_labels metrics_counter_key) (Qofn 1)).
    { apply Hsame.
      apply (shows_request_count (collected sample_clock)
               (handle Since_2_1 sample_clock (GET "/metrics") empty_registry).2);
        [reflexivity |].
      exists 1. split; reflexivity. }
    apply (shows_request_count (collected sample_clock) empty_registry) in Hin;
      [| reflexivity].
    destruct Hin as (n & Hn & _). discriminate Hn.
  - intros E. apply (f_equal (λ m, observations metrics_latency_key m)) in E.
    vm_compute in E. discriminate E.
Qed.

(** ** Runs of the service *)

(** The end-to-end case of the specification: the body [{"x": 1}]. *)
Example predict_x_1 :
  (handle Since_2_1 sample_clock (POST "/predict" true (Parsed (JDict [ ("x", JInt 1) ])))
     empty_registry).1
  = jsonify (JDict [ ("prediction", JStr "example_result");
                     ("confidence", JFloat 0.95%Q);
                     ("model_version", JStr "1.0.0");
                     ("timestamp", JStr "2025-07-14T09:30:05.000250") ]) 200.
Proof. reflexivity. Qed.

(** Requests that match no rule, or a rule with another method, are counted
    under the endpoint [unknown]. *)
Example unknown_endpoints_counted :
  let reg := serve Since_2_1
               [ (sample_clock, GET "/nope");
                 (sample_clock, POST "/health" false NoBody);
                 (sample_clock, GET "/nope") ]
               empty_registry in
  REQUEST_COUNT reg !! ("GET", "unknown", "404") = Some 2
  ∧ REQUEST_COUNT reg !! ("POST", "unknown", "405") = Some 1
  ∧ size (REQUEST_COUNT reg) = 2%nat.
Proof. vm_compute. repeat split. Qed.

(** Leading slashes and the case of the method do not matter to the
    router, and the static files rule is one more endpoint: with no file to
    send, it answers 404 under [static]. *)
Example routed_as_werkzeug_does :
  let reg := serve Since_2_1
               [ (sample_clock, GET "//health");
                 (sample_clock, {| method := "get"; path := "///ready";
                                   is_json := false; data := NoBody |});
                 (sample_clock, GET "/static/app.js");
                 (sample_clock, POST "/static/app.js" false NoBody);
                 (sample_clock, {| method := "OPTIONS"; path := "/static/app.js";
                                   is_json := false; data := NoBody |});
                 (sample_clock, GET "/static//app.js") ]
               empty_registry in
  REQUEST_COUNT reg !! ("GET", "health", "200") = Some 1
  ∧ REQUEST_COUNT reg !! ("GET", "ready", "200") = Some 1
  ∧ REQUEST_COUNT reg !! ("GET", "static", "404") = Some 1
  ∧ REQUEST_COUNT reg !! ("POST", "unknown", "405") = Some 1
  ∧ REQUEST_COUNT reg !! ("OPTIONS", "static", "200") = Some 1
  ∧ REQUEST_COUNT reg !! ("GET", "unknown", "308") = Some 1
  ∧ size (REQUEST_COUNT reg) = 6%nat.
Proof. vm_compute. repeat split. Qed.

(** One caller after the other: [n] increments of a series leave it [n]
    above what it read, and the exposition shows that value. *)
Lemma sequential_increments (n : nat) (k : string * string * string) (reg : registry) :
  let reg' := Nat.iter n (set_REQUEST_COUNT (inc k)) reg in
  value k (REQUEST_COUNT reg') = value k (REQUEST_COUNT reg) + N.of_nat n
  ∧ (n ≠ O → ∀ others, foreign others = true →
     shows (generate_latest others reg') "http_requests_total" (request_labels k)
       (Qofn (value k (REQUEST_COUNT reg) + N.of_nat n))).
Proof.
  intros reg'. subst reg'.
  assert (Hv : value k (REQUEST_COUNT (Nat.iter n (set_REQUEST_COUNT (inc k)) reg))
               = value k (REQUEST_COUNT reg) + N.of_nat n).
  { induction n as [|n IH]; [simpl; lia |].
    rewrite Nat.iter_succ. cbn [set_REQUEST_COUNT REQUEST_COUNT].
    rewrite value_inc_eq, IH. lia. }
  split; [exact Hv |].
  intros Hn others Hf. apply shows_request_count; [exact Hf |].
  destruct n as [|n]; [contradiction |].
  rewrite Nat.iter_succ in *. cbn [set_REQUEST_COUNT REQUEST_COUNT] in *.
  rewrite lookup_inc_eq. eexists. split; [reflexivity |].
  rewrite value_inc_eq in Hv.
  f_equal. lia.
Qed.

(** * More of the service *)

(** ** The answer of the router *)

Section RouterAnswers.

Context (wz : werkzeug).

Lemma handle_routing_exception (clk : clock) (req : request) (reg : registry) (code : N) :
  url_match (path req) (upper (method req)) = RoutingException code →
  (handle wz clk req reg).1 = error_page code.
Proof. intros E. unfold handle, match_request. now rewrite E. Qed.

Lemma existsb_false {A} (f : A → bool) (l : list A) :
  (∀ x, x ∈ l → f x = false) → existsb f l = false.
Proof.
  intros Hf. destruct (existsb f l) eqn:E; [| reflexivity].
  apply existsb_exists in E as (x & Hin & Hx).
  apply list_elem_of_In in Hin. now rewrite (Hf x Hin) in Hx.
Qed.

(** Only the empty path lacks a slash a rule asks for. *)
Lemma slash_required_empty (p m : string) : p ≠ "" → slash_required p m = false.
Proof.
  intros Hp. unfold slash_required, url_map, takes.
  cbn [existsb rule_path static_rule health_rule ready_rule metrics_rule
       predict_rule index_rule ends_in_slash Ascii.eqb Bool.eqb andb orb fits].
  destruct p as [|c p]; [contradiction |].
  rewrite append_cons. cbn [String.eqb].
  destruct (Ascii.eqb "/" c); [| reflexivity].
  destruct p; reflexivity.
Qed.

Lemma merge_slashes_empty (s : string) : merge_slashes s = "" → s = "".
Proof.
  destruct s as [|c [|c' s]]; cbn; try discriminate; [reflexivity |].
  destruct (Ascii.eqb c "/" && Ascii.eqb c' "/"); discriminate.
Qed.

(** A path that fits a rule, with a method the rule does not take, is
    answered 405 when slashes are not at stake. *)
Lemma url_match_405 (path_info m : string) :
  let p := path_part path_info in
  (∀ r, r ∈ url_map → takes r p m = false) →
  p ≠ "" → merge_slashes p = p →
  (∃ r, r ∈ url_map ∧ fits (rule_path r) p = true) →
  url_match path_info m = RoutingException 405.
Proof.
  intros p Hno Hp Hmerge (r & Hin & Hf). unfold url_match. fold p.
  rewrite Hmerge, (proj2 (find_none_iff _ _) Hno), slash_required_empty by exact Hp.
  assert (He : existsb (λ r, fits (rule_path r) p) url_map = true).
  { apply existsb_exists. exists r. now rewrite <- list_elem_of_In. }
  now rewrite He.
Qed.

(** A path that fits no rule, and fits none with its slashes merged, is
    answered 404. *)
Lemma url_match_404 (path_info m : string) :
  let p := path_part path_info in
  (∀ r, r ∈ url_map → fits (rule_path r) p = false) →
  (∀ r, r ∈ url_map → fits (rule_path r) (merge_slashes p) = false) →
  p ≠ "" →
  url_match path_info m = RoutingException 404.
Proof.
  intros p Hno Hnom Hp. unfold url_match. fold p.
  assert (Hm : merge_slashes p ≠ "") by (intros E; now apply merge_slashes_empty in E).
  rewrite (proj2 (find_none_iff (λ r, takes r p m) url_map)),
    (proj2 (find_none_iff (λ r, takes r (merge_slashes p) m) url_map)),
    !slash_required_empty, !existsb_false by
      (try assumption; intros r Hin; unfold takes;
       rewrite ?Hno, ?Hnom by exact Hin; reflexivity).
  reflexivity.
Qed.

End RouterAnswers.

(** ** Slashes in a row *)

Section Slashes.

Lemma lstrip_slashes_head (s : string) (c : ascii) (t : string) :
  lstrip_slashes s = String c t → c ≠ "/"%char.
Proof.
  induction s as [|a s IH]; cbn; [discriminate |].
  destruct (Ascii.eqb_spec a "/") as [->|Hne]; [exact IH |].
  now intros [= <- <-].
Qed.

(** The first character stays; after one that is no slash the rest is
    merged by itself. *)
Lemma merge_slashes_head (s : string) (c : ascii) (q : string) :
  merge_slashes s = String c q →
  ∃ s', s = String c s' ∧ (c ≠ "/"%char → merge_slashes s' = q).
Proof.
  destruct s as [|c0 [|c1 s2]]; cbn [merge_slashes]; [discriminate | |].
  - intros [= <- <-]. now exists "".
  - destruct (Ascii.eqb_spec c0 "/") as [->|Hne]; cbn [andb].
    + destruct (Ascii.eqb c1 "/").
      * intros [= <- <-]. eexists. split; [reflexivity |]. intros H. now destruct H.
      * intros [= <- <-]. eexists. split; [reflexivity |]. intros H. now destruct H.
    + intros [= <- <-]. eexists. split; [reflexivity |]. reflexivity.
Qed.

(** A text with no slash in it is what was there before the merge. *)
Lemma merge_slashes_plain (q : string) :
  "/"%char ∉ list_ascii_of_string q →
  ∀ s, merge_slashes s = q → s = q.
Proof.
  induction q as [|a q IH]; intros Hq s E; [now apply merge_slashes_empty |].
  cbn [list_ascii_of_string] in Hq. apply not_elem_of_cons in Hq as [Ha Hq].
  apply merge_slashes_head in E as (s' & -> & E).
  f_equal. apply (IH Hq), E. congruence.
Qed.

Lemma prefix_cons (a : ascii) (q s : string) :
  String.prefix (String a q) s = true ↔ ∃ s', s = String a s' ∧ String.prefix q s' = true.
Proof.
  destruct s as [|b s]; cbn [String.prefix].
  - split; [discriminate | now intros (s' & E & _)].
  - destruct (ascii_dec a b) as [->|Hne].
    + split; [intros H; now exists s | now intros (s' & [= <-] & H)].
    + split; [discriminate | intros (s' & [= E _] & _); congruence].
Qed.

(** So is a beginning with no slash in it but the one it ends with. *)
Lemma merge_slashes_prefix (q : string) :
  "/"%char ∉ list_ascii_of_string q →
  ∀ s, String.prefix (q +:+ "/") (merge_slashes s) = true →
       String.prefix (q +:+ "/") s = true.
Proof.
  induction q as [|a q IH]; intros Hq s.
  - rewrite append_empty_l, !prefix_cons. intros (m' & E & _).
    apply merge_slashes_head in E as (s' & -> & _).
    exists s'. split; [reflexivity | now destruct s'].
  - cbn [list_ascii_of_string] in Hq. apply not_elem_of_cons in Hq as [Ha Hq].
    rewrite append_cons, !prefix_cons. intros (m' & E & Hpre).
    apply merge_slashes_head in E as (s' & -> & E).
    exists s'. split; [reflexivity |]. apply (IH Hq).
    rewrite E by congruence. exact Hpre.
Qed.

(** The path Werkzeug matches is empty, or a slash and then no slash. *)
Lemma path_part_shape (path_info : string) :
  path_part path_info = ""
  ∨ path_part path_info = "/"
  ∨ ∃ c t, c ≠ "/"%char ∧ path_part path_info = String "/" (String c t)
           ∧ merge_slashes (path_part path_info)
             = String "/" (merge_slashes (String c t)).
Proof.
  destruct path_info as [|a s]; [now left |]. right.
  unfold path_part.
  destruct (lstrip_slashes (String a s)) as [|c t] eqn:E; [now left |]. right.
  pose proof (lstrip_slashes_head _ _ _ E) as Hc.
  exists c, t. split; [exact Hc |]. split; [reflexivity |].
  cbn [merge_slashes Ascii.eqb Bool.eqb andb].
  change (Ascii.eqb "/" "/") with true. cbn [andb].
  now rewrite (proj2 (Ascii.eqb_neq c "/") Hc).
Qed.

(** Merging brings no path to one of the five routes that was not there,
    and none under [/static/]. *)
Lemma fits_merged (r : rule) (path_info : string) :
  let p := path_part path_info in
  r ∈ url_map → fits (rule_path r) (merge_slashes p) = true →
  String.prefix "/static/" p = true
  ∨ p ∈ ["/health"; "/ready"; "/metrics"; "/predict"; "/"].
Proof.
  intros p Hin Hf.
  destruct (path_part_shape path_info) as [E | [E | (c & t & Hc & E & Em)]];
    fold p in E; try fold p in Em.
  - rewrite E in Hf.
    apply in_url_map in Hin as [-> | [-> | [-> | [-> | [-> | ->]]]]];
      discriminate Hf.
  - right. rewrite E. set_solver.
  - rewrite Em in Hf. rewrite E.
    assert (Hplain : ∀ q, "/"%char ∉ list_ascii_of_string q →
              String "/" (merge_slashes (String c t)) = String "/" q →
              String c t = q).
    { intros q Hq [= Eq]. now apply merge_slashes_plain. }
    destruct (fits_url_map r _ Hin Hf)
      as [[_ Hs] | [[_ Eq] | [[_ Eq] | [[_ Eq] | [[_ Eq] | [_ Eq]]]]]].
    + left. apply prefix_cons in Hs as (m' & [= <-] & Hs).
      apply prefix_cons. eexists. split; [reflexivity |].
      apply (merge_slashes_prefix "static"); [| exact Hs].
      cbn. set_solver.
    + right. apply Hplain in Eq; [rewrite Eq; set_solver | cbn; set_solver].
    + right. apply Hplain in Eq; [rewrite Eq; set_solver | cbn; set_solver].
    + right. apply Hplain in Eq; [rewrite Eq; set_solver | cbn; set_solver].
    + right. apply Hplain in Eq; [rewrite Eq; set_solver | cbn; set_solver].
    + assert (E2 : merge_slashes (String c t) = "") by congruence.
      apply merge_slashes_empty in E2. discriminate E2.
Qed.

End Slashes.

(** ** Statuses *)

Section Routes.

Context (wz : werkzeug).

Lemma dispatched_status (clk : clock) (req : request) (reg : registry)
    (ep : string) (resp : response) (reg1 : registry) :
  dispatched wz clk req reg ep resp reg1 →
  status_code resp ∈ [200; 308; 400; 404; 405; 500].
Proof.
  intros [code E | r E Hm | E Hm | E Hm | E Hm | resp' E Hm Hr
          | resp' reg' E Hm Hr | E Hm]; cbn [status_code error_page
            default_options_response health ready index jsonify ready_with forallb
            snd andb]; try set_solver.
  - apply url_match_exception in E as [-> | [-> | ->]]; set_solver.
  - injection Hr as <-. cbn. set_solver.
  - destruct (predict_returns wz clk (as_received req) reg) as (r' & Hp & Hs).
    rewrite Hp in Hr. injection Hr as <- _.
    destruct Hs as [-> | [-> | ->]]; set_solver.
Qed.

(** X1.  Every request is answered 200, 308, 400, 404, 405 or 500.  On the
    path Werkzeug matches, which is the path of the request with its leading
    slashes brought down to one, and the method in upper case: [/health],
    [/ready], [/metrics] and [/] are answered 200 to [GET], [HEAD] and
    [OPTIONS] and 405 to every other method; [/predict] is answered 200 to
    [OPTIONS], 200, 400 or 500 to [POST] and 405 to every other method;
    only a [POST] of [/predict] is ever answered 400 or 500; and a path
    that is none of the five, is not empty and does not begin with
    [/static/] is answered 404 whatever the method. *)
Theorem status_by_route (clk : clock) (req : request) (reg : registry) :
  let s := status_code (handle wz clk req reg).1 in
  let m := upper (method req) in
  let p := path_part (path req) in
  s ∈ [200; 308; 400; 404; 405; 500]
  ∧ (p ∈ ["/health"; "/ready"; "/metrics"; "/"] →
       (m ∈ ["GET"; "HEAD"; "OPTIONS"] → s = 200)
       ∧ (m ∉ ["GET"; "HEAD"; "OPTIONS"] → s = 405))
  ∧ (p = "/predict" →
       (m = "OPTIONS" → s = 200)
       ∧ (m = "POST" → s = 200 ∨ s = 400 ∨ s = 500)
       ∧ (m ∉ ["POST"; "OPTIONS"] → s = 405))
  ∧ (s = 400 ∨ s = 500 → p = "/predict" ∧ m = "POST")
  ∧ (p ∉ ["/health"; "/ready"; "/metrics"; "/predict"; "/"] →
       String.prefix "/static/" p = false → p ≠ "" → s = 404).
Proof.
  intros s m p.
  destruct (handle_dispatched wz clk req reg) as (ep & resp & reg1 & Hd & _ & Hh).
  assert (Hs : s = status_code resp) by (subst s; now rewrite Hh).
  rewrite Hs. clear Hs Hh s. subst m p.
  assert (Hno : ∀ l, upper (method req) ∉ l →
            (∀ r, r ∈ url_map → fits (rule_path r) (path_part (path req)) = true →
                  allowed r = l) →
            ∀ r, r ∈ url_map →
                 takes r (path_part (path req)) (upper (method req)) = false).
  { intros l Hm Hl r Hin. unfold takes.
    destruct (fits (rule_path r) (path_part (path req))) eqn:Hf; [| reflexivity].
    apply mem_false_iff. now rewrite (Hl r Hin Hf). }
  split; [exact (dispatched_status _ _ _ _ _ _ Hd) |].
  split; [| split; [| split]].
  - intros Hp. split.
    + intros Hm.
      assert (∃ r, r ∈ [health_rule; ready_rule; metrics_rule; index_rule]
                   ∧ url_match (path req) (upper (method req)) = Route r) as (r & Hr & E).
      { rewrite !elem_of_cons, elem_of_nil in Hp.
        destruct Hp as [Hp | [Hp | [Hp | [Hp | []]]]];
          [exists health_rule | exists ready_rule | exists metrics_rule
           | exists index_rule];
          (split; [set_solver |]);
          eapply url_match_exactly; try exact Hp; try reflexivity;
            first [exact Hm | apply in_url_map; tauto]. }
      destruct Hd; same_route; try reflexivity;
        try (injection H1 as <-; reflexivity);
        exfalso; set_solver.
    + intros Hm.
      assert (E : url_match (path req) (upper (method req)) = RoutingException 405).
      { apply url_match_405.
        - apply (Hno _ Hm). intros r Hin Hf.
          destruct (fits_url_map r _ Hin Hf)
            as [[-> Hpre] | [[-> _] | [[-> _] | [[-> _] | [[-> E] | [-> _]]]]]];
            try reflexivity.
          exfalso. rewrite E in Hp. set_solver.
        - intros E. rewrite E in Hp. set_solver.
        - rewrite !elem_of_cons, elem_of_nil in Hp.
          destruct Hp as [-> | [-> | [-> | [-> | []]]]]; reflexivity.
        - rewrite !elem_of_cons, elem_of_nil in Hp.
          destruct Hp as [Hp | [Hp | [Hp | [Hp | []]]]]; rewrite Hp;
            [exists health_rule | exists ready_rule | exists metrics_rule
             | exists index_rule];
            (split; [apply in_url_map; tauto | reflexivity]). }
      destruct Hd; same_route; reflexivity.
  - intros Hp.
    assert (Hroute : upper (method req) ∈ ["POST"; "OPTIONS"] →
              url_match (path req) (upper (method req)) = Route predict_rule).
    { intros Hm. eapply url_match_exactly; try exact Hp; try reflexivity;
        first [exact Hm | apply in_url_map; tauto]. }
    split; [| split].
    + intros Hm. specialize (Hroute ltac:(rewrite Hm; set_solver)).
      destruct Hd; same_route; try reflexivity; same_method.
    + intros Hm. specialize (Hroute ltac:(rewrite Hm; set_solver)).
      destruct Hd; same_route; try (left; reflexivity); same_method.
      destruct (predict_returns wz clk (as_received req) reg) as (r' & Hp' & Hs).
      rewrite Hp' in H1. now injection H1 as <- _.
    + intros Hm.
      assert (E : url_match (path req) (upper (method req)) = RoutingException 405).
      { apply url_match_405.
        - apply (Hno _ Hm). intros r Hin Hf.
          destruct (fits_url_map r _ Hin Hf)
            as [[-> Hpre] | [[-> E] | [[-> E] | [[-> E] | [[-> E] | [-> E]]]]]];
            rewrite Hp in *; try discriminate; reflexivity.
        - now rewrite Hp.
        - now rewrite Hp.
        - exists predict_rule. rewrite Hp.
          split; [apply in_url_map; tauto | reflexivity]. }
      destruct Hd; same_route; reflexivity.
  - intros Hs.
    destruct Hd as [code E | r E Hm | E Hm | E Hm | E Hm | resp' E Hm Hr
                    | resp' reg' E Hm Hr | E Hm];
      cbn in Hs; try (destruct Hs as [Hs | Hs]; discriminate Hs).
    + apply url_match_exception in E as [-> | [-> | ->]];
        destruct Hs as [Hs | Hs]; discriminate Hs.
    + injection Hr as <-. destruct Hs as [Hs | Hs]; discriminate Hs.
    + split; [| exact Hm].
      apply url_match_route in E as (Hin & Hf & _).
      apply String.eqb_eq in Hf. now symmetry.
  - intros Hp Hpre Hne.
    assert (E : url_match (path req) (upper (method req)) = RoutingException 404).
    { apply url_match_404; [| | exact Hne].
      - intros r Hin. destruct (fits (rule_path r) (path_part (path req))) eqn:Hf; [| reflexivity].
        exfalso.
        destruct (fits_url_map r _ Hin Hf)
          as [[_ E] | [[_ E] | [[_ E] | [[_ E] | [[_ E] | [_ E]]]]]];
          [congruence | apply Hp; rewrite E; set_solver ..].
      - intros r Hin.
        destruct (fits (rule_path r) (merge_slashes (path_part (path req)))) eqn:Hf; [| reflexivity].
        exfalso. destruct (fits_merged r (path req) Hin Hf) as [E | E];
          [congruence | now apply Hp]. }
    destruct Hd; same_route; reflexivity.
Qed.

End Routes.

Section Independence.

Context (wz : werkzeug).

(** What [predict] answers is settled by the request and the clock; the
    status by the request alone. *)
Lemma predict_indep (clk clk' : clock) (req : request) (reg reg' r1 r1' : registry)
    (resp resp' : response) :
  predict wz clk req reg = (Return resp, r1) →
  predict wz clk' req reg' = (Return resp', r1') →
  status_code resp = status_code resp' ∧ (clk = clk' → resp = resp').
Proof.
  unfold predict, try_except, get_json, mbind, py_bind, mret, py_ret, raise, update.
  destruct (is_json req); [destruct (data req) as [| |v] | destruct wz];
    try destruct (truthy v); cbn;
    intros [= <- <-] [= <- <-]; (split; [reflexivity | now intros ->]).
Qed.

(** The way a request goes is the same in every state of the registry and
    at every reading of the clock, and so is the status of the answer. *)
Lemma dispatched_indep (clk clk' : clock) (req : request) (reg reg' : registry)
    (ep ep' : string) (resp resp' : response) (reg1 reg1' : registry) :
  dispatched wz clk req reg ep resp reg1 →
  dispatched wz clk' req reg' ep' resp' reg1' →
  ep = ep' ∧ status_code resp = status_code resp'
  ∧ (clk = clk' →
     ¬ (path_part (path req) = "/metrics"
        ∧ (upper (method req) = "GET" ∨ upper (method req) = "HEAD")) →
     resp = resp').
Proof.
  intros Hd Hd'.
  destruct Hd as [code E | r E Hm | E Hm | E Hm | E Hm | r1 E Hm Hr
                  | r1 g1 E Hm Hr | E Hm];
    destruct Hd' as [code' E' | r' E' Hm' | E' Hm' | E' Hm' | E' Hm' | r1' E' Hm' Hr'
                     | r1' g1' E' Hm' Hr' | E' Hm'];
    same_route; try (exfalso; same_method; fail);
    try (split; [reflexivity |]; split; [reflexivity |]; now intros ->).
  - injection Hr as <-. injection Hr' as <-.
    split; [reflexivity |]. split; [reflexivity |].
    intros _ Hnot. exfalso. apply Hnot. split; [| exact Hm].
    apply url_match_route in E as (_ & Hf & _).
    apply String.eqb_eq in Hf. now symmetry.
  - destruct (predict_indep _ _ _ _ _ _ _ _ _ Hr Hr') as [Hs He].
    split; [reflexivity |]. split; [exact Hs |]. intros Hc _. now apply He.
Qed.

Lemma handle_status_indep (clk clk' : clock) (req : request) (reg reg' : registry) :
  status_code (handle wz clk req reg).1 = status_code (handle wz clk' req reg').1.
Proof.
  destruct (handle_dispatched wz clk req reg) as (ep & resp & reg1 & Hd & _ & ->).
  destruct (handle_dispatched wz clk' req reg') as (ep' & resp' & reg1' & Hd' & _ & ->).
  exact (proj1 (proj2 (dispatched_indep _ _ _ _ _ _ _ _ _ _ _ Hd Hd'))).
Qed.

(** X2.  Only a [GET] or [HEAD] of [/metrics] reads the registry.  The status
    of every response is settled by the request alone, whatever the registry
    and the clock; and but for that scrape the whole response is the same
    in every state of the registry.  The scrape answers with the exposition
    of the registry as it found it.  (The path is the one Werkzeug matches,
    leading slashes brought down to one, and the method is in upper
    case.) *)
Theorem only_metrics_reads_registry
    (clk clk' : clock) (req : request) (reg reg' : registry) :
  let scrape :=
    path_part (path req) = "/metrics"
    ∧ (upper (method req) = "GET" ∨ upper (method req) = "HEAD") in
  status_code (handle wz clk req reg).1 = status_code (handle wz clk' req reg').1
  ∧ (¬ scrape → (handle wz clk req reg).1 = (handle wz clk req reg').1)
  ∧ (scrape →
     exposition_of (handle wz clk req reg).1 = generate_latest (collected clk) reg).
Proof.
  intros scrape. subst scrape.
  split; [apply handle_status_indep |]. split.
  - intros Hnot.
    destruct (handle_dispatched wz clk req reg) as (ep & resp & reg1 & Hd & _ & ->).
    destruct (handle_dispatched wz clk req reg') as (ep' & resp' & reg1' & Hd' & _ & ->).
    now apply (proj2 (proj2 (dispatched_indep _ _ _ _ _ _ _ _ _ _ _ Hd Hd'))).
  - intros [Hp Hm].
    assert (E : url_match (path req) (upper (method req)) = Route metrics_rule).
    { eapply url_match_exactly; try exact Hp; try reflexivity;
        [apply in_url_map; tauto |].
      destruct Hm as [-> | ->]; set_solver. }
    destruct (handle_dispatched wz clk req reg) as (ep & resp & reg1 & Hd & _ & ->).
    cbn [fst].
    destruct Hd as [code E' | r E' Hm' | E' Hm' | E' Hm' | E' Hm' | r1 E' Hm' Hr
                    | r1 g1 E' Hm' Hr | E' Hm'];
      same_route; try (exfalso; same_method; fail).
    now injection Hr as <-.
Qed.

End Independence.

Section Extras.

Context (wz : werkzeug).

(** X3.  With a JSON Content-Type, [predict] takes any body whose value is
    true in Python, be it an object, an array, a string, a number or
    [true], and answers 200 with a response that does not look at the body;
    it turns every other value away with the 400.  The values it turns away
    are [null], [false], [0], [0.0], the empty string, the empty array and
    the empty object. *)
Theorem predict_takes_any_truthy_value (clk : clock) (v : json) (reg : registry) :
  (handle wz clk (POST "/predict" true (Parsed v)) reg).1
  = (if truthy v then
       jsonify (JDict [ ("prediction", JStr "example_result");
                        ("confidence", JFloat 0.95%Q);
                        ("model_version", JStr "1.0.0");
                        ("timestamp", JStr (isoformat (utcnow clk))) ]) 200
     else jsonify (JDict [ ("error", JStr "No input data provided") ]) 400)
  ∧ (truthy v = false ↔
       v = JNull ∨ v = JBool false ∨ v = JInt 0 ∨ (∃ q, v = JFloat q ∧ (q == 0)%Q)
       ∨ v = JStr "" ∨ v = JList [] ∨ v = JDict []).
Proof.
  split.
  - destruct (handle_post_predict wz clk true (Parsed v) reg) as (resp & Hp & _ & -> & _).
    revert Hp.
    unfold predict, try_except, get_json, mbind, py_bind, mret, py_ret, update.
    cbn [POST is_json data]. destruct (truthy v); cbn; now intros [= <-].
  - destruct v as [| b | n | q | s | l | l]; cbn [truthy].
    4: { rewrite negb_false_iff, Qeq_bool_iff. split.
         - intros Hq. right; right; right; left. now exists q.
         - intros [H|[H|[H|[(q' & H & Hq)|[H|[H|H]]]]]]; try discriminate H.
           now injection H as ->. }
    3: destruct (Z.eqb_spec n 0) as [->|Hn]; cbn [negb].
    3-4: idtac.
    all: try destruct b; try destruct s; try destruct l.
    all: (split;
          [ intros E; try discriminate E; auto 10
          | intros [H|[H|[H|[(q' & H & _)|[H|[H|H]]]]]];
            try discriminate H; try reflexivity; try (injection H as ->; contradiction) ]).
Qed.

(** The series one request is counted under bears the method in upper
    case, one of seven endpoint labels and one of six status labels. *)
Lemma counter_key_labels (clk : clock) (req : request) (reg : registry) :
  let k := counter_key req (handle wz clk req reg).1 in
  k.1.1 = upper (method req) ∧ k.1.2 ∈ endpoint_labels ∧ k.2 ∈ status_labels.
Proof.
  destruct (handle_dispatched wz clk req reg) as (ep & resp & reg1 & Hd & Hep & Hh).
  unfold counter_key. rewrite Hh, Hep. cbn [fst snd].
  split; [reflexivity |]. split.
  - destruct Hd as [code E | r E Hm | E Hm | E Hm | E Hm | r1 E Hm Hr
                    | r1 g1 E Hm Hr | E Hm]; try (unfold endpoint_labels; set_solver).
    apply url_match_route in E as (Hin & _).
    apply in_url_map in Hin as [-> | [-> | [-> | [-> | [-> | ->]]]]];
      unfold endpoint_labels; cbn; set_solver.
  - pose proof (dispatched_status _ _ _ _ _ _ _ Hd) as Hs.
    rewrite !elem_of_cons, elem_of_nil in Hs.
    destruct Hs as [-> | [-> | [-> | [-> | [-> | [-> | []]]]]]];
      vm_compute; repeat first [ apply list_elem_of_here | apply list_elem_of_further ].
Qed.

End Extras.

Section Counting.
Context (wz : werkzeug).

Lemma counter_key_series_of (clk : clock) (req : request) (reg : registry) :
  counter_key req (handle wz clk req reg).1 = series_of wz (clk, req).
Proof.
  unfold series_of, counter_key. cbn [fst snd].
  now rewrite (handle_status_indep wz clk clk req reg empty_registry).
Qed.

Lemma requests_under_cons (k : string * string * string) (cr : clock * request)
    (history : list (clock * request)) :
  requests_under wz k (cr :: history)
  = (if decide (series_of wz cr = k) then 1 else 0) + requests_under wz k history.
Proof.
  unfold requests_under. rewrite filter_cons.
  destruct (decide (series_of wz cr = k)); cbn [length]; lia.
Qed.

(** Each series of the request counter has grown by the number of requests
    that fell under it. *)
Lemma serve_request_count (history : list (clock * request)) :
  ∀ (reg : registry) (k : string * string * string),
    value k (REQUEST_COUNT (serve wz history reg))
    = value k (REQUEST_COUNT reg) + requests_under wz k history.
Proof.
  induction history as [|[clk req] history IH]; intros reg k.
  - change (requests_under wz k []) with 0. cbn [serve]. lia.
  - cbn [serve]. rewrite IH, requests_under_cons.
    destruct (handle_registry wz clk req reg) as [-> _].
    rewrite counter_key_series_of.
    destruct (decide (series_of wz (clk, req) = k)) as [<-|Hne].
    + rewrite value_inc_eq. lia.
    + rewrite value_inc_ne by assumption. lia.
Qed.

(** A series that exists has been incremented: no counter series is ever
    held at zero. *)
Lemma serve_request_count_positive (history : list (clock * request)) :
  ∀ reg,
    map_Forall (λ _ n, n ≠ 0) (REQUEST_COUNT reg) →
    map_Forall (λ _ n, n ≠ 0) (REQUEST_COUNT (serve wz history reg)).
Proof.
  induction history as [|[clk req] history IH]; intros reg Hpos; [exact Hpos |].
  cbn [serve]. apply IH.
  destruct (handle_registry wz clk req reg) as [-> _].
  intros k n Hk. destruct (decide (counter_key req (handle wz clk req reg).1 = k)) as [<-|Hne].
  - rewrite lookup_inc_eq in Hk. injection Hk as <-. lia.
  - rewrite lookup_inc_ne in Hk by assumption. exact (Hpos _ _ Hk).
Qed.


End Counting.

Section Series.
Context (wz : werkzeug).

Lemma requests_under_elem (k : string * string * string)
    (history : list (clock * request)) :
  requests_under wz k history ≠ 0 ↔ ∃ cr, cr ∈ history ∧ series_of wz cr = k.
Proof.
  unfold requests_under. split.
  - intros Hne. destruct (filter (λ cr, series_of wz cr = k) history) as [|cr l] eqn:E;
      [cbn in Hne; lia |].
    assert (Hin : cr ∈ filter (λ cr, series_of wz cr = k) history)
      by (rewrite E; apply list_elem_of_here).
    apply list_elem_of_filter in Hin as [Hk Hin]. now exists cr.
  - intros (cr & Hin & Hk).
    assert (Hf : cr ∈ filter (λ cr, series_of wz cr = k) history)
      by (apply list_elem_of_filter; auto).
    destruct (filter _ history); [inversion Hf | cbn; lia].
Qed.

(** X5.  The series of the request counter are named by a method in upper
    case, one of the seven endpoint labels [static], [health], [ready],
    [metrics], [predict], [index] and [unknown], and one of the six status
    labels 200, 308, 400, 404, 405 and 500; the path of a request never
    becomes a label, and every series that exists stands for a request that
    was served, whose method it bears. *)
Theorem request_series_labels
    (history : list (clock * request)) (k : string * string * string) :
  is_Some (REQUEST_COUNT (serve wz history empty_registry) !! k) →
  k.1.2 ∈ [ "static"; "health"; "ready"; "metrics"; "predict"; "index"; "unknown" ]
  ∧ k.2 ∈ [ "200"; "308"; "400"; "404"; "405"; "500" ]
  ∧ ∃ cr, cr ∈ history ∧ k.1.1 = upper (method cr.2) ∧ series_of wz cr = k.
Proof.
  intros [n Hk].
  pose proof (serve_request_count_positive wz history empty_registry
                (map_Forall_empty _) _ _ Hk) as Hn. cbn beta in Hn.
  pose proof (serve_request_count wz history empty_registry k) as Hv.
  unfold value in Hv at 1. rewrite Hk in Hv.
  assert (Hne : requests_under wz k history ≠ 0).
  { unfold value, empty_registry in Hv. cbn [REQUEST_COUNT] in Hv.
    rewrite lookup_empty in Hv. cbn [default from_option] in Hv. unfold id in Hv. lia. }
  apply requests_under_elem in Hne as ([clk req] & Hin & <-).
  destruct (counter_key_labels wz clk req empty_registry) as (Hm & He & Hs).
  unfold series_of. cbn [fst snd] in *.
  split; [exact He |]. split; [exact Hs |].
  exists (clk, req). split; [exact Hin |]. split; [exact Hm | reflexivity].
Qed.

(** What a request does to the predictions counter, told by the series it
    is counted under. *)
Lemma handle_predictions_exact (clk : clock) (req : request) (reg : registry) :
  PREDICTIONS_COUNT (handle wz clk req reg).2
  = if decide (counter_key req (handle wz clk req reg).1 = ("POST", "predict", "200"))
    then inc "v1" (PREDICTIONS_COUNT reg)
    else PREDICTIONS_COUNT reg.
Proof.
  destruct (handle_dispatched wz clk req reg) as (ep & resp & reg1 & Hd & Hep & Hh).
  unfold counter_key. rewrite Hh, Hep. cbn [fst snd].
  change (PREDICTIONS_COUNT (run _ reg1)) with (PREDICTIONS_COUNT reg1).
  destruct Hd as [code E | r E Hm | E Hm | E Hm | E Hm | r1 E Hm Hr
                  | r1 g1 E Hm Hr | E Hm];
    try (rewrite decide_False; [reflexivity |];
         intros Hk;
         pose proof (f_equal (λ k : string * string * string, k.1.1) Hk) as H1;
         pose proof (f_equal (λ k : string * string * string, k.1.2) Hk) as H2;
         cbn in H1, H2; first [ discriminate H2 | congruence ]).
  destruct (predict_returns wz clk (as_received req) reg) as (r' & Hp & Hs).
  rewrite Hp in Hr. injection Hr as <- <-. rewrite Hm.
  destruct Hs as [-> | [-> | ->]]; case_decide as Hk; try reflexivity;
    exfalso; first [ now apply Hk | vm_compute in Hk; congruence ].
Qed.

(** X6.  In every state the process can reach, the predictions counter has no
    series but [model="v1"], and it reads what the request counter reads for
    [POST], [predict], [200]. *)
Theorem predictions_match_requests (history : list (clock * request)) :
  let reg := serve wz history empty_registry in
  dom (PREDICTIONS_COUNT reg) ⊆ {[ "v1" ]}
  ∧ value "v1" (PREDICTIONS_COUNT reg)
    = value ("POST", "predict", "200") (REQUEST_COUNT reg).
Proof.
  cut (∀ reg,
         dom (PREDICTIONS_COUNT reg) ⊆ {[ "v1" ]}
         ∧ value "v1" (PREDICTIONS_COUNT reg)
           = value ("POST", "predict", "200") (REQUEST_COUNT reg) →
         dom (PREDICTIONS_COUNT (serve wz history reg)) ⊆ {[ "v1" ]}
         ∧ value "v1" (PREDICTIONS_COUNT (serve wz history reg))
           = value ("POST", "predict", "200") (REQUEST_COUNT (serve wz history reg))).
  { intros Hcut. apply Hcut. split; [set_solver | reflexivity]. }
  induction history as [|[clk req] history IH]; intros reg [Hdom Hval]; [now split |].
  cbn [serve]. apply IH.
  rewrite handle_predictions_exact.
  destruct (handle_registry wz clk req reg) as [-> _].
  case_decide as Hk.
  - rewrite Hk, !value_inc_eq, Hval. split; [| reflexivity].
    intros k Hin. apply elem_of_dom in Hin as [n Hn].
    destruct (decide ("v1" = k)) as [<-|Hne]; [set_solver |].
    rewrite lookup_inc_ne in Hn by assumption.
    apply Hdom, elem_of_dom. eauto.
  - rewrite value_inc_ne by assumption. now split.
Qed.

End Series.

Lemma request_series_labels_witness :
  is_Some (REQUEST_COUNT (serve Since_2_1 [ (sample_clock, GET "/static/app.js") ]
                            empty_registry) !! ("GET", "static", "404"))
  ∧ "static" ∈ [ "static"; "health"; "ready"; "metrics"; "predict"; "index"; "unknown" ]
  ∧ "404" ∈ [ "200"; "308"; "400"; "404"; "405"; "500" ].
Proof.
  assert (H : is_Some (REQUEST_COUNT (serve Since_2_1 [ (sample_clock, GET "/static/app.js") ]
                            empty_registry) !! ("GET", "static", "404")))
    by (vm_compute; eauto).
  split; [exact H |].
  destruct (request_series_labels Since_2_1 [ (sample_clock, GET "/static/app.js") ]
              ("GET", "static", "404") H) as (He & Hs & _).
  split; assumption.
Defined.


Section Latency.
Context (wz : werkzeug).







End Latency.


Section Timestamps.
Context (wz : werkzeug).

(** The three answers [predict] has. *)
Lemma predict_response_forms (clk : clock) (req : request) (reg r1 : registry)
    (resp : response) :
  predict wz clk req reg = (Return resp, r1) →
  resp = jsonify (JDict [ ("prediction", JStr "example_result");
                          ("confidence", JFloat 0.95%Q);
                          ("model_version", JStr "1.0.0");
                          ("timestamp", JStr (isoformat (utcnow clk))) ]) 200
  ∨ resp = jsonify (JDict [ ("error", JStr "No input data provided") ]) 400
  ∨ resp = jsonify (JDict [ ("error", JStr "Internal server error") ]) 500.
Proof.
  unfold predict, try_except, get_json, mbind, py_bind, mret, py_ret, raise, update.
  destruct (is_json req); [destruct (data req) as [| |v] | destruct wz];
    try destruct (truthy v); cbn; intros [= <- <-]; auto.
Qed.

(** X8.  Whichever request is answered, a [timestamp] in the body of the
    response is a string that an ISO-8601 reader reads back as the UTC
    date-time the clock gave: so for [/ready] and [/predict] as for
    [/health]. *)
Theorem every_timestamp_reads_back
    (clk : clock) (req : request) (reg : registry) (ts : json) :
  valid_datetime (utcnow clk) = true →
  body_field "timestamp" (handle wz clk req reg).1 = Some ts →
  ∃ s, ts = JStr s ∧ parse_iso8601 s = Some (utcnow clk).
Proof.
  intros Hv.
  destruct (handle_dispatched wz clk req reg) as (ep & resp & reg1 & Hd & _ & ->).
  cbn [fst].
  destruct Hd as [code E | r E Hm | E Hm | E Hm | E Hm | r1 E Hm Hr
                  | r1 g1 E Hm Hr | E Hm];
    try (intros H; discriminate H).
  - intros [= <-]. eexists. split; [reflexivity | now apply parse_isoformat].
  - intros [= <-]. eexists. split; [reflexivity | now apply parse_isoformat].
  - injection Hr as <-. intros H. discriminate H.
  - destruct (predict_response_forms _ _ _ _ _ Hr) as [-> | [-> | ->]];
      try (intros H; discriminate H).
    intros [= <-]. eexists. split; [reflexivity | now apply parse_isoformat].
Qed.

End Timestamps.

Lemma every_timestamp_reads_back_witness :
  valid_datetime (utcnow sample_clock) = true
  ∧ body_field "timestamp" (handle Since_2_1 sample_clock (GET "/ready") empty_registry).1
    = Some (JStr "2025-07-14T09:30:05.000250")
  ∧ ∃ s, JStr "2025-07-14T09:30:05.000250" = JStr s
         ∧ parse_iso8601 s = Some (utcnow sample_clock).
Proof.
  split; [reflexivity |]. split; [reflexivity |].
  apply (every_timestamp_reads_back Since_2_1 sample_clock (GET "/ready") empty_registry);
    reflexivity.
Defined.

Section IsoformatShape.

Lemma length_append (a b : string) :
  String.length (a +:+ b) = (String.length a + String.length b)%nat.
Proof.
  induction a as [|x a IH]; [reflexivity |].
  rewrite append_cons. cbn [String.length]. now rewrite IH.
Qed.

Lemma length_zpad (w : nat) : ∀ n, String.length (zpad w n) = w.
Proof.
  induction w as [|w IH]; intros n; [reflexivity |].
  cbn [zpad]. rewrite length_append, IH. cbn [String.length]. lia.
Qed.

(** X9.  [isoformat] has two shapes: nineteen characters when the clock
    stands on a whole second, the fraction being left out altogether, and
    twenty-six otherwise. *)
Theorem isoformat_length (d : datetime) :
  String.length (isoformat d) = if microsecond d =? 0 then 19%nat else 26%nat.
Proof.
  unfold isoformat. rewrite !length_append, !length_zpad.
  destruct (microsecond d =? 0).
  - reflexivity.
  - rewrite length_append, length_zpad. reflexivity.
Qed.

(** X10.  Two different date-times never have the same timestamp. *)
Theorem isoformat_distinct (d1 d2 : datetime) :
  valid_datetime d1 = true → valid_datetime d2 = true →
  d1 ≠ d2 → isoformat d1 ≠ isoformat d2.
Proof.
  intros H1 H2 Hne E. apply Hne.
  apply parse_isoformat in H1, H2. rewrite E in H1. congruence.
Qed.

End IsoformatShape.

Lemma isoformat_distinct_witness :
  isoformat (utcnow sample_clock)
  ≠ isoformat {| year := 2025; month := 7; day := 14;
                 hour := 9; minute := 30; second := 5; microsecond := 0 |}.
Proof.
  apply isoformat_distinct; [reflexivity | reflexivity | discriminate].
Defined.

Section Buckets.


End Buckets.

Section BucketMeaning.








Context (wz : werkzeug).




End BucketMeaning.

Section StartupOutcome.

Context (int : string → option Z).

Lemma level_of_names (name : string) :
  is_Some (level_of name level_names)
  ↔ name ∈ [ "CRITICAL"; "FATAL"; "ERROR"; "WARN"; "WARNING"; "INFO"; "DEBUG";
             "NOTSET" ].
Proof.
  unfold level_names. cbn [level_of].
  repeat match goal with
         | |- context [String.eqb ?a name] =>
             destruct (String.eqb_spec a name) as [<-|?];
             [split; [intros _; set_solver | intros _; eexists; reflexivity] |]
         end.
  split; [intros [l Hl]; cbn in Hl; discriminate Hl |].
  rewrite !elem_of_cons, elem_of_nil. intuition congruence.
Qed.

(** X13.  The script gets as far as [app.run] exactly when [LOG_LEVEL] (or
    its default) is one of the level names [logging] knows, and
    [MAX_WORKERS], [PORT] and [METRICS_PORT] (or their defaults) all read as
    integers; the server then listens on every interface, on [PORT], with
    debugging off.  [METRICS_PORT] and [MAX_WORKERS] decide nothing else:
    they are read and never used. *)
Theorem startup_outcome (environ : gmap string string) (args : run_args) :
  (∃ logged, start int environ = Some (logged, Some args))
  ↔ getenv environ "LOG_LEVEL" "INFO"
      ∈ [ "CRITICAL"; "FATAL"; "ERROR"; "WARN"; "WARNING"; "INFO"; "DEBUG"; "NOTSET" ]
    ∧ is_Some (int (getenv environ "MAX_WORKERS" "4"))
    ∧ is_Some (int (getenv environ "METRICS_PORT" "9090"))
    ∧ int (getenv environ "PORT" "8080") = Some (port args)
    ∧ host args = "0.0.0.0" ∧ debug args = false.
Proof.
  rewrite <- level_of_names. unfold start, load_config, main. split.
  - intros [logged H].
    destruct (level_of _ level_names) as [l|]; [| discriminate H].
    cbn [mbind option_bind] in H.
    destruct (int (getenv environ "MAX_WORKERS" "4")) as [w|]; [| discriminate H].
    cbn [mbind option_bind] in H. injection H as _ H.
    destruct (int (getenv environ "PORT" "8080")) as [p|]; [| discriminate H].
    cbn [mbind option_bind] in H.
    destruct (int (getenv environ "METRICS_PORT" "9090")) as [mp|]; [| discriminate H].
    cbn [mbind option_bind] in H. injection H as <-. cbn. eauto 10.
  - intros ([l ->] & [w ->] & [mp ->] & -> & Hh & Hd).
    cbn [mbind option_bind]. eexists. do 2 f_equal.
    destruct args as [h p d]. cbn in Hh, Hd. now subst.
Qed.

End StartupOutcome.

(** With nothing set, the server starts on port 8080; a [METRICS_PORT] that
    is no number stops it, and one that is a number changes nothing; a
    [MAX_WORKERS] that is no number, or a [LOG_LEVEL] that is no level name,
    stops the import. *)
Example startup_runs :
  snd <$> start digits_value ∅
  = Some (Some {| host := "0.0.0.0"; port := 8080; debug := false |})
  ∧ snd <$> start digits_value {[ "METRICS_PORT" := "nine" ]} = Some None
  ∧ snd <$> start digits_value {[ "METRICS_PORT" := "9191" ]}
    = Some (Some {| host := "0.0.0.0"; port := 8080; debug := false |})
  ∧ start digits_value {[ "MAX_WORKERS" := "" ]} = None
  ∧ start digits_value {[ "LOG_LEVEL" := "verbose" ]} = None
  ∧ start digits_value {[ "LOG_LEVEL" := "info" ]} = None
  ∧ start digits_value {[ "LOG_LEVEL" := "WARNING" ]}
    = Some ([], Some {| host := "0.0.0.0"; port := 8080; debug := false |}).
Proof. vm_compute. repeat split. Qed.

(** One [GET /health] that took a quarter of a second: the series
    [{GET, health}] renders 0 up to the bound 0.1 and 1 from 0.25 on. *)
Example health_latency_buckets :
  (λ h, cumulative 0 (h_buckets h))
    <$> REQUEST_LATENCY (serve Since_2_1 [ (sample_clock, GET "/health") ] empty_registry)
        !! ("GET", "health")
  = Some [0; 0; 0; 0; 0; 0; 1; 1; 1; 1; 1; 1; 1; 1; 1].
Proof. reflexivity. Qed.
